(** * screen-capture-mcp: capture / OCR orchestration, shallowly embedded

    The development follows [src/tools.ts] (capture, recognition, application
    listing) and [src/index.ts] (the tool request handler).  The asynchronous
    functions of the source run one step after the other inside a request, so
    each becomes a computation in a state-and-exception monad over a
    [Machine]: the files on disk and the chronological trace of every call
    made to an external collaborator (screenshot-desktop, sharp, tesseract.js,
    fs, child_process, the clock, console.error).  What those collaborators
    answer is not decided here: it is read from a [World], a record of
    oracles that may depend on everything that happened before. *)

From Stdlib Require Import ZArith NArith String Ascii List Lia Bool DecimalString.
From stdpp Require Import base gmap list strings.

Local Open Scope string_scope.

(** ** JavaScript strings

    A string is a sequence of code units; the model keeps the code units
    below 256 (Rocq's [ascii]). *)

Module Js.

Definition dquote : string := String "034"%char EmptyString.
Definition squote : string := String "039"%char EmptyString.
Definition newline : string := String "010"%char EmptyString.

(** White space and line terminators of ECMAScript that fit in one code
    unit below 256: TAB, LF, VT, FF, CR, SP and NBSP. *)
Definition is_space (c : ascii) : bool :=
  match N_of_ascii c with
  | 9 | 10 | 11 | 12 | 13 | 32 | 160 => true
  | _ => false
  end%N.

Fixpoint trimStart (s : string) : string :=
  match s with
  | EmptyString => EmptyString
  | String c s' => if is_space c then trimStart s' else s
  end.

Fixpoint trimEnd (s : string) : string :=
  match s with
  | EmptyString => EmptyString
  | String c s' =>
      match trimEnd s' with
      | EmptyString => if is_space c then EmptyString else String c EmptyString
      | t => String c t
      end
  end.

(** [String.prototype.trim] *)
Definition trim (s : string) : string := trimEnd (trimStart s).

Fixpoint all_space (s : string) : bool :=
  match s with
  | EmptyString => true
  | String c s' => is_space c && all_space s'
  end.

Definition first_char (s : string) : option ascii :=
  match s with
  | EmptyString => None
  | String c _ => Some c
  end.

Fixpoint last_char (s : string) : option ascii :=
  match s with
  | EmptyString => None
  | String c EmptyString => Some c
  | String _ s' => last_char s'
  end.

(** No white space at either end. *)
Definition trimmed (s : string) : Prop :=
  (forall c, first_char s = Some c -> is_space c = false) /\
  (forall c, last_char s = Some c -> is_space c = false).

(** [s.replace(/[:.]/g, "-")] *)
Fixpoint replace_colon_dot (s : string) : string :=
  match s with
  | EmptyString => EmptyString
  | String c s' =>
      String (if (Ascii.eqb c ":" || Ascii.eqb c ".")%bool then "-"%char else c)
             (replace_colon_dot s')
  end.

Fixpoint string_rev_to (acc : list ascii) (tl : string) : string :=
  match acc with
  | nil => tl
  | c :: acc' => string_rev_to acc' (String c tl)
  end.

(** [s.split(sep)] for a non-empty separator: [skip] counts the code units
    of a separator occurrence still to be passed over, [cur] holds the
    current piece, last code unit first. *)
Fixpoint split_go (sep : string) (skip : nat) (cur : list ascii) (s : string)
  : list string :=
  match s with
  | EmptyString => string_rev_to cur EmptyString :: nil
  | String c s' =>
      match skip with
      | S k => split_go sep k cur s'
      | O =>
          if String.prefix sep s
          then string_rev_to cur EmptyString
               :: split_go sep (String.length sep - 1) nil s'
          else split_go sep O (c :: cur) s'
      end
  end.

Definition split (sep s : string) : list string := split_go sep O nil s.

(** [arr.join(sep)] *)
Fixpoint join (sep : string) (l : list string) : string :=
  match l with
  | nil => EmptyString
  | x :: nil => x
  | x :: rest => x +:+ sep +:+ join sep rest
  end.

(** [arr.map((x, index) => f(x, index))] *)
Fixpoint mapi_from {A B} (i : nat) (f : A -> nat -> B) (l : list A) : list B :=
  match l with
  | nil => nil
  | x :: rest => f x i :: mapi_from (S i) f rest
  end.

Definition mapi {A B} (f : A -> nat -> B) (l : list A) : list B :=
  mapi_from 0 f l.

(** Template-literal rendering of an integral number (of magnitude below
    10^21, where JavaScript still prints every digit). *)
Definition of_Z (z : Z) : string := NilZero.string_of_int (Z.to_int z).

(** [hay] contains [needle]. *)
Definition contains (hay needle : string) : Prop :=
  exists pre post, hay = pre +:+ needle +:+ post.

End Js.

(** ** Buffers

    A [Buffer] is its sequence of bytes; [buf.toString("base64")] is the
    standard base64 rendering with [=] padding. *)

Abbreviation bytes := (list Byte.byte).

Module Base64.

Definition alphabet : string :=
  "ABCDEFGHIJKLMNOPQRSTUVWXYZabcdefghijklmnopqrstuvwxyz0123456789+/".

Definition digit (n : N) : ascii :=
  match String.get (N.to_nat n) alphabet with
  | Some c => c
  | None => "="%char
  end.

Definition pad : ascii := "="%char.

Fixpoint encode (b : bytes) : string :=
  match b with
  | [] => EmptyString
  | [x] =>
      let x := Byte.to_N x in
      String (digit (N.shiftr x 2))
        (String (digit (N.shiftl (N.land x 3) 4))
           (String pad (String pad EmptyString)))
  | [x; y] =>
      let x := Byte.to_N x in
      let y := Byte.to_N y in
      String (digit (N.shiftr x 2))
        (String (digit (N.lor (N.shiftl (N.land x 3) 4) (N.shiftr y 4)))
           (String (digit (N.shiftl (N.land y 15) 2))
              (String pad EmptyString)))
  | x :: y :: z :: rest =>
      let x := Byte.to_N x in
      let y := Byte.to_N y in
      let z := Byte.to_N z in
      String (digit (N.shiftr x 2))
        (String (digit (N.lor (N.shiftl (N.land x 3) 4) (N.shiftr y 4)))
           (String (digit (N.lor (N.shiftl (N.land y 15) 2) (N.shiftr z 6)))
              (String (digit (N.land z 63)) (encode rest))))
  end.

End Base64.

Definition bytes_of_string (s : string) : bytes := list_byte_of_string s.

(** ** Exceptions, events and the machine *)

Inductive Format := Png | Jpg.

Definition format_str (f : Format) : string :=
  match f with
  | Png => "png"
  | Jpg => "jpg"
  end.

(** A thrown JavaScript [Error]; the collaborators and the source throw
    nothing else, so [error instanceof Error ? error.message : String(error)]
    is [message]. *)
Record JsError := Err { message : string }.

(** [String(error)], as a template literal renders an [Error]. *)
Definition error_to_string (e : JsError) : string := "Error: " +:+ message e.

Inductive Completion (A : Type) :=
| Normal (a : A)
| Throw (e : JsError).
Arguments Normal {A} a.
Arguments Throw {A} e.

Definition is_normal {A} (c : Completion A) : bool :=
  match c with
  | Normal _ => true
  | Throw _ => false
  end.

(** One call to a collaborator, with its arguments and what it answered. *)
Inductive Event :=
| EvMkdir (path : string) (r : Completion unit)
| EvNow (iso : string)
| EvScreenshot (screen : Z) (format : Format) (r : Completion bytes)
| EvSharpEncode (format : Format) (input : bytes) (r : Completion bytes)
| EvSharpOcr (input : bytes) (r : Completion bytes)
| EvWriteFile (path : string) (data : bytes) (r : Completion unit)
| EvReadFile (path : string) (r : Completion bytes)
| EvExec (command : string) (r : Completion string)
| EvSleep (ms : nat)
| EvCreateWorker (language : string) (r : Completion nat)
| EvRecognize (worker : nat) (image : bytes) (r : Completion string)
| EvTerminate (worker : nat) (r : Completion unit)
| EvLog (line : string).

Record Machine := {
  files : gmap string bytes;   (* regular files on disk, by path *)
  trace : list Event           (* oldest call first *)
}.

(** The collaborators.  Every answer may depend on the whole machine, hence
    on all earlier calls. *)
Record World := {
  homedir : string;                                        (* os.homedir() *)
  path_join : string -> string -> string;                  (* path.join *)
  now_iso : Machine -> string;                  (* new Date().toISOString() *)
  mkdir_out : Machine -> string -> Completion unit;  (* fs.mkdir, recursive *)
  screenshot_out : Machine -> Z -> Format -> Completion bytes;
  sharp_encode_out : Machine -> Format -> bytes -> Completion bytes;
  sharp_ocr_out : Machine -> bytes -> Completion bytes;
  write_out : Machine -> string -> bytes -> Completion unit;
  exec_out : Machine -> string -> Completion string;      (* stdout *)
  exec_files : Machine -> string -> gmap string bytes;    (* disk afterwards *)
  worker_out : Machine -> string -> Completion nat;       (* createWorker *)
  recognize_out : Machine -> nat -> bytes -> Completion string;
  terminate_out : Machine -> nat -> Completion unit
}.

(** ** The monad of asynchronous functions *)

Definition M (A : Type) : Type := Machine -> Completion A * Machine.

Definition ret {A} (a : A) : M A := fun st => (Normal a, st).

Definition throw {A} (e : JsError) : M A := fun st => (Throw e, st).

Definition bind {A B} (m : M A) (k : A -> M B) : M B :=
  fun st =>
    match m st with
    | (Normal a, st1) => k a st1
    | (Throw e, st1) => (Throw e, st1)
    end.

(** [try { body } catch (error) { handler error }] *)
Definition try_catch {A} (body : M A) (handler : JsError -> M A) : M A :=
  fun st =>
    match body st with
    | (Normal a, st1) => (Normal a, st1)
    | (Throw e, st1) => handler e st1
    end.

(** [try { body } finally { fin }]: [fin] runs on both exits, and an
    exception of [fin] replaces the completion of [body]. *)
Definition try_finally {A} (body : M A) (fin : M unit) : M A :=
  fun st =>
    match body st with
    | (c, st1) =>
        match fin st1 with
        | (Normal _, st2) => (c, st2)
        | (Throw e, st2) => (Throw e, st2)
        end
    end.

Declare Scope js_scope.
Delimit Scope js_scope with js.
Notation "'let*' x ':=' c 'in' k" := (bind c (fun x => k))
  (at level 10, x name, c at level 100, k at level 200) : js_scope.
Notation "c ';;;' k" := (bind c (fun _ => k))
  (at level 100, k at level 200, right associativity) : js_scope.
Local Open Scope js_scope.

Definition emit (ev : Event) (st : Machine) : Machine :=
  {| files := files st; trace := trace st ++ [ev] |}.

(** A call that leaves the disk alone. *)
Definition extern {A} (answer : Machine -> Completion A)
  (ev : Completion A -> Event) : M A :=
  fun st => (answer st, emit (ev (answer st)) st).

Definition console_error (line : string) : M unit :=
  fun st => (Normal tt, emit (EvLog line) st).

(** [await new Promise((resolve) => setTimeout(resolve, ms))] *)
Definition sleep (ms : nat) : M unit :=
  fun st => (Normal tt, emit (EvSleep ms) st).

Section Collaborators.

Context (w : World).

Definition fs_mkdir (path : string) : M unit :=
  extern (fun st => mkdir_out w st path) (EvMkdir path).

(** [new Date().toISOString()] *)
Definition date_now_iso : M string :=
  fun st => (Normal (now_iso w st), emit (EvNow (now_iso w st)) st).

Definition screenshot (screen : Z) (format : Format) : M bytes :=
  extern (fun st => screenshot_out w st screen format) (EvScreenshot screen format).

(** [sharp(input).jpeg({ quality: 90 }).toBuffer()] for [Jpg],
    [sharp(input).png().toBuffer()] for [Png]. *)
Definition sharp_encode (format : Format) (input : bytes) : M bytes :=
  extern (fun st => sharp_encode_out w st format input) (EvSharpEncode format input).

(** [sharp(input).greyscale().normalize().sharpen().toBuffer()] *)
Definition sharp_ocr (input : bytes) : M bytes :=
  extern (fun st => sharp_ocr_out w st input) (EvSharpOcr input).

(** [fs.writeFile]: when it resolves, the file holds [data]. *)
Definition fs_writeFile (path : string) (data : bytes) : M unit :=
  fun st =>
    let r := write_out w st path data in
    (r, {| files := if is_normal r then <[path := data]> (files st) else files st;
           trace := trace st ++ [EvWriteFile path data r] |}).

Definition read_answer (st : Machine) (path : string) : Completion bytes :=
  match files st !! path with
  | Some data => Normal data
  | None =>
      Throw (Err ("ENOENT: no such file or directory, open '" +:+ path +:+ "'"))
  end.

(** [fs.readFile] *)
Definition fs_readFile (path : string) : M bytes :=
  extern (fun st => read_answer st path) (EvReadFile path).

(** [promisify(exec)(command)]: resolves with the standard output, rejects
    when the command fails; the command may have changed the disk. *)
Definition execAsync (command : string) : M string :=
  fun st =>
    let r := exec_out w st command in
    (r, {| files := exec_files w st command;
           trace := trace st ++ [EvExec command r] |}).

Definition createWorker (language : string) : M nat :=
  extern (fun st => worker_out w st language) (EvCreateWorker language).

Definition worker_recognize (worker : nat) (image : bytes) : M string :=
  extern (fun st => recognize_out w st worker image) (EvRecognize worker image).

Definition worker_terminate (worker : nat) : M unit :=
  extern (fun st => terminate_out w st worker) (EvTerminate worker).

End Collaborators.

(** ** tools.ts *)

Record ScreenshotResult := {
  path : string;
  base64 : string;
  buffer : bytes
}.

(** The options object of [captureScreen]; [None] is an absent property. *)
Record CaptureOptions := {
  opt_display : option Z;
  opt_format : option Format;
  opt_applicationName : option string
}.

(** The options object of [captureScreenAndExtractText]. *)
Record CaptureTextOptions := {
  cto_display : option Z;
  cto_language : option string;
  cto_applicationName : option string
}.

Record CaptureTextResult := {
  text : string;
  screenshot_of : ScreenshotResult
}.

Record ApplicationInfo := {
  name : string;
  pid : nat
}.

(** Truthiness of an optional string: absent and empty are both falsy. *)
Definition truthy_string (o : option string) : option string :=
  match o with
  | Some EmptyString => None
  | Some s => Some s
  | None => None
  end.

Definition lines (l : list string) : string := Js.join Js.newline l.

(** The AppleScript of [getRunningApplications], between the back quotes. *)
Definition list_script : string :=
  lines [ EmptyString;
          "      tell application " +:+ Js.dquote +:+ "System Events" +:+ Js.dquote;
          "        set appList to {}";
          "        repeat with proc in (every process whose background only is false)";
          "          set appList to appList & {name of proc as string}";
          "        end repeat";
          "        return appList";
          "      end tell";
          "    " ].

(** The AppleScript of [captureApplicationScreen]: activate the application,
    bring its process to the front, and return [true] when it has a window,
    [false] when it has none. *)
Definition window_script (applicationName : string) : string :=
  lines [ EmptyString;
          "      tell application " +:+ Js.dquote +:+ applicationName +:+ Js.dquote;
          "        activate";
          "      end tell";
          "      ";
          "      tell application " +:+ Js.dquote +:+ "System Events" +:+ Js.dquote;
          "        tell process " +:+ Js.dquote +:+ applicationName +:+ Js.dquote;
          "          set frontmost to true";
          "          set windowList to every window";
          "          if (count of windowList) > 0 then";
          "            set frontWindow to item 1 of windowList";
          "            return true";
          "          else";
          "            return false";
          "          end if";
          "        end tell";
          "      end tell";
          "    " ].

Definition osascript (script : string) : string :=
  "osascript -e " +:+ Js.squote +:+ script +:+ Js.squote.

Definition screencapture_window (filepath : string) : string :=
  "screencapture -o -w " +:+ Js.dquote +:+ filepath +:+ Js.dquote.

Definition display_filename (display : Z) (timestamp : string) (format : Format) : string :=
  "screenshot-display-" +:+ Js.of_Z display +:+ "-" +:+ timestamp +:+ "." +:+ format_str format.

Definition application_filename (applicationName timestamp : string) (format : Format) : string :=
  applicationName +:+ "-" +:+ timestamp +:+ "." +:+ format_str format.

Section Tools.

Context (w : World).

Definition desktopPath : string := path_join w (homedir w) "Desktop".

Definition screenshotsFolder : string := path_join w desktopPath "mcp-screenshots".

Definition createScreenshotsFolder : M string :=
  try_catch
    (fs_mkdir w screenshotsFolder ;;;
     ret screenshotsFolder)
    (fun error =>
       throw (Err ("Failed to create screenshots folder: " +:+ message error))).

(** [new Date().toISOString().replace(/[:.]/g, "-")] *)
Definition timestamp_now : M string :=
  let* iso := date_now_iso w in
  ret (Js.replace_colon_dot iso).

(** The [try] statement of [captureScreen], reached when no application
    name is given. *)
Definition captureDisplay (display : Z) (format : Format) : M ScreenshotResult :=
  try_catch
    (let* imageBuffer := screenshot w display format in
     let* processedBuffer := sharp_encode w format imageBuffer in
     let* screenshotsFolder := createScreenshotsFolder in
     let* timestamp := timestamp_now in
     let filename := display_filename display timestamp format in
     let filepath := path_join w screenshotsFolder filename in
     fs_writeFile w filepath processedBuffer ;;;
     let base64 := Base64.encode processedBuffer in
     ret {| path := filepath; base64 := base64; buffer := processedBuffer |})
    (fun error =>
       throw (Err ("Failed to capture screen: " +:+ message error))).

(** The inner [try] of [captureApplicationScreen] either falls through
    ([None]) or returns from the function with the fallback capture. *)
Definition captureApplicationScreen (applicationName : string) (format : Format)
  : M ScreenshotResult :=
  try_catch
    (let* screenshotsFolder := createScreenshotsFolder in
     let* timestamp := timestamp_now in
     let filename := application_filename applicationName timestamp format in
     let filepath := path_join w screenshotsFolder filename in
     let script := window_script applicationName in
     let* returned :=
       try_catch
         (execAsync w (osascript script) ;;;
          sleep 500 ;;;
          execAsync w (screencapture_window filepath) ;;;
          ret None)
         (fun appError =>
            console_error
              ("App-specific capture failed, falling back to full screen: "
               +:+ error_to_string appError) ;;;
            (* captureScreen({ display: 0, format }): no application name *)
            let* fallback := captureDisplay 0 format in
            ret (Some fallback)) in
     match returned with
     | Some result => ret result
     | None =>
         let* imageBuffer := fs_readFile filepath in
         let* processedBuffer := sharp_encode w format imageBuffer in
         fs_writeFile w filepath processedBuffer ;;;
         let base64 := Base64.encode processedBuffer in
         ret {| path := filepath; base64 := base64; buffer := processedBuffer |}
     end)
    (fun error =>
       throw (Err ("Failed to capture application screen: " +:+ message error))).

Definition captureScreen (options : CaptureOptions) : M ScreenshotResult :=
  let display := default 0%Z (opt_display options) in
  let format := default Png (opt_format options) in
  match truthy_string (opt_applicationName options) with
  | Some applicationName => captureApplicationScreen applicationName format
  | None => captureDisplay display format
  end.

Definition extractTextFromImage (input : bytes + string) (language : string)
  : M string :=
  let* worker := createWorker w language in
  try_finally
    (try_catch
       (let* imageBuffer :=
          match input with
          | inr file => fs_readFile file
          | inl data => ret data
          end in
        let* processedImage := sharp_ocr w imageBuffer in
        let* text := worker_recognize w worker processedImage in
        ret (Js.trim text))
       (fun error =>
          throw (Err ("Failed to extract text from image: " +:+ message error))))
    (worker_terminate w worker).

Definition captureScreenAndExtractText (options : CaptureTextOptions)
  : M CaptureTextResult :=
  let display := default 0%Z (cto_display options) in
  let language := default "eng" (cto_language options) in
  let applicationName := cto_applicationName options in
  let* screenshot :=
    captureScreen {| opt_display := Some display;
                     opt_format := Some Png;
                     opt_applicationName := applicationName |} in
  let* text := extractTextFromImage (inl (buffer screenshot)) language in
  ret {| text := text; screenshot_of := screenshot |}.

Definition getRunningApplications : M (list ApplicationInfo) :=
  try_catch
    (let* stdout := execAsync w (osascript list_script) in
     let appNames := map Js.trim (Js.split ", " (Js.trim stdout)) in
     ret (Js.mapi (fun name index => {| name := name; pid := index |}) appNames))
    (fun error =>
       throw (Err ("Failed to get running applications: " +:+ message error))).

End Tools.

(** ** index.ts: the tool request handler *)

(** The [arguments] object of a tool call, with the properties the tool
    schemas declare, typed as the handler casts them. *)
Record ToolArguments := {
  arg_display : option Z;
  arg_format : option Format;
  arg_applicationName : option string;
  arg_imagePath : option string;
  arg_language : option string
}.

Record CallToolRequest := {
  tool_name : string;
  tool_arguments : option ToolArguments
}.

Inductive Content :=
| TextContent (text : string)
| ImageContent (data : string) (mimeType : string).

Record CallToolResult := {
  content : list Content;
  isError : option bool
}.

(** [args?.prop] *)
Definition arg {A} (args : option ToolArguments) (prop : ToolArguments -> option A)
  : option A :=
  match args with
  | Some a => prop a
  | None => None
  end.

Definition bullet : string :=
  String "226"%char (String "128"%char (String "162"%char EmptyString)).

Definition error_text (name errorMessage : string) : string :=
  "Error executing tool '" +:+ name +:+ "': " +:+ errorMessage.

Section Server.

Context (w : World).

Definition tool_capture_screen (args : option ToolArguments) : M CallToolResult :=
  let display := default 0%Z (arg args arg_display) in
  let format := default Png (arg args arg_format) in
  console_error ("Capturing screen - Display: " +:+ Js.of_Z display
                 +:+ ", Format: " +:+ format_str format) ;;;
  let* result :=
    captureScreen w {| opt_display := Some display;
                       opt_format := Some format;
                       opt_applicationName := None |} in
  ret {| content :=
           [ TextContent
               ("Screenshot captured successfully!" +:+ Js.newline
                +:+ "Path: " +:+ path result +:+ Js.newline
                +:+ "Format: " +:+ format_str format +:+ Js.newline
                +:+ "Display: " +:+ Js.of_Z display);
             ImageContent (base64 result) ("image/" +:+ format_str format) ];
         isError := None |}.

Definition tool_capture_application_screen (args : option ToolArguments)
  : M CallToolResult :=
  match truthy_string (arg args arg_applicationName) with
  | None => throw (Err "applicationName is required")
  | Some applicationName =>
      let format := default Png (arg args arg_format) in
      console_error ("Capturing application screen - App: " +:+ applicationName
                     +:+ ", Format: " +:+ format_str format) ;;;
      let* result := captureApplicationScreen w applicationName format in
      ret {| content :=
               [ TextContent
                   ("Application screenshot captured successfully!" +:+ Js.newline
                    +:+ "App: " +:+ applicationName +:+ Js.newline
                    +:+ "Path: " +:+ path result +:+ Js.newline
                    +:+ "Format: " +:+ format_str format);
                 ImageContent (base64 result) ("image/" +:+ format_str format) ];
             isError := None |}
  end.

Definition tool_list_applications : M CallToolResult :=
  console_error "Listing running applications" ;;;
  let* applications := getRunningApplications w in
  let appList :=
    Js.join Js.newline (map (fun app => bullet +:+ " " +:+ name app) applications) in
  ret {| content :=
           [ TextContent
               ("Running applications:" +:+ Js.newline +:+ Js.newline
                +:+ appList +:+ Js.newline +:+ Js.newline
                +:+ "You can use any of these application names with the capture_application_screen tool.") ];
         isError := None |}.

Definition tool_extract_text (args : option ToolArguments) : M CallToolResult :=
  match truthy_string (arg args arg_imagePath) with
  | None => throw (Err "imagePath is required")
  | Some imagePath =>
      let language := default "eng" (truthy_string (arg args arg_language)) in
      console_error ("Extracting text from: " +:+ imagePath
                     +:+ ", Language: " +:+ language) ;;;
      let* extractedText := extractTextFromImage w (inr imagePath) language in
      ret {| content :=
               [ TextContent
                   ("Text extracted successfully from: " +:+ imagePath
                    +:+ Js.newline +:+ Js.newline
                    +:+ "Extracted text:" +:+ Js.newline +:+ extractedText) ];
             isError := None |}
  end.

Definition tool_capture_screen_and_extract_text (args : option ToolArguments)
  : M CallToolResult :=
  let display := default 0%Z (arg args arg_display) in
  let language := default "eng" (truthy_string (arg args arg_language)) in
  let applicationName := arg args arg_applicationName in
  console_error
    ("Capturing screen and extracting text - Display: " +:+ Js.of_Z display
     +:+ ", Language: " +:+ language
     +:+ match truthy_string applicationName with
         | Some app => ", App: " +:+ app
         | None => EmptyString
         end) ;;;
  let* result :=
    captureScreenAndExtractText w
      {| cto_display := Some display;
         cto_language := Some language;
         cto_applicationName := applicationName |} in
  ret {| content :=
           [ TextContent
               ("Screenshot captured and text extracted successfully!" +:+ Js.newline
                +:+ "Path: " +:+ path (screenshot_of result)
                +:+ match truthy_string applicationName with
                    | Some app => Js.newline +:+ "Application: " +:+ app
                    | None => Js.newline +:+ "Display: " +:+ Js.of_Z display
                    end
                +:+ Js.newline +:+ "Language: " +:+ language
                +:+ Js.newline +:+ Js.newline
                +:+ "Extracted text:" +:+ Js.newline +:+ text result);
             ImageContent (base64 (screenshot_of result)) "image/png" ];
         isError := None |}.

(** The [switch (name)] of the handler. *)
Definition dispatch (name : string) (args : option ToolArguments) : M CallToolResult :=
  if String.eqb name "capture_screen" then tool_capture_screen args
  else if String.eqb name "capture_application_screen"
       then tool_capture_application_screen args
  else if String.eqb name "list_applications" then tool_list_applications
  else if String.eqb name "extract_text" then tool_extract_text args
  else if String.eqb name "capture_screen_and_extract_text"
       then tool_capture_screen_and_extract_text args
  else throw (Err ("Unknown tool: " +:+ name)).

Definition error_result (name : string) (error : JsError) : CallToolResult :=
  {| content := [ TextContent (error_text name (message error)) ];
     isError := Some true |}.

(** The handler registered for [CallToolRequestSchema]. *)
Definition callTool (request : CallToolRequest) : M CallToolResult :=
  let name := tool_name request in
  let args := tool_arguments request in
  try_catch
    (dispatch name args)
    (fun error =>
       console_error (error_text name (message error)) ;;;
       ret (error_result name error)).

End Server.

(** ** index.ts: the advertised tools

    The [tools] array that the handler of [ListToolsRequestSchema] returns:
    per tool its name, description and input schema (the declared
    properties with type, enumeration and default, and the required ones). *)

Module Schema.

Record Property := {
  prop : string;
  type : string;
  enum : list string;
  description_of : string;
  default_value : option string
}.

Record Tool := {
  name : string;
  description : string;
  properties : list Property;
  required : list string;
  additionalProperties : bool
}.

Definition display_property (description : string) : Property :=
  {| prop := "display"; type := "number"; enum := [];
     description_of := description; default_value := Some "0" |}.

Definition format_property : Property :=
  {| prop := "format"; type := "string"; enum := ["png"; "jpg"];
     description_of := "Image format"; default_value := Some "png" |}.

Definition language_property : Property :=
  {| prop := "language"; type := "string"; enum := [];
     description_of := "Language code for OCR (e.g., eng, spa, fra)";
     default_value := Some "eng" |}.

Definition tools : list Tool :=
  [ {| name := "capture_screen";
       description := "Captures a screenshot of the specified display";
       properties :=
         [ display_property "Display number (0 for primary display)";
           format_property ];
       required := [];
       additionalProperties := false |};
    {| name := "capture_application_screen";
       description := "Captures a screenshot of a specific application window";
       properties :=
         [ {| prop := "applicationName"; type := "string"; enum := [];
              description_of :=
                "Name of the application to capture (e.g., 'Safari', 'Chrome', 'Finder')";
              default_value := None |};
           format_property ];
       required := ["applicationName"];
       additionalProperties := false |};
    {| name := "list_applications";
       description := "Lists all running applications that can be captured";
       properties := [];
       required := [];
       additionalProperties := false |};
    {| name := "extract_text";
       description := "Extracts text from an image using OCR";
       properties :=
         [ {| prop := "imagePath"; type := "string"; enum := [];
              description_of := "Path to the image file";
              default_value := None |};
           language_property ];
       required := ["imagePath"];
       additionalProperties := false |};
    {| name := "capture_screen_and_extract_text";
       description :=
         "Captures a screenshot and extracts text from it in one operation. Can capture full screen or a specific application window.";
       properties :=
         [ display_property
             "Display number (0 for primary display) - ignored if applicationName is provided";
           language_property;
           {| prop := "applicationName"; type := "string"; enum := [];
              description_of :=
                "Name of the application to capture (e.g., 'Safari', 'Chrome'). If provided, captures only this application's window instead of full screen.";
              default_value := None |} ];
       required := [];
       additionalProperties := false |} ].

Definition tool_names : list string := map name tools.

End Schema.

(** ** A concrete desktop

    One small world to run the functions on: a desktop with a single
    application of interest, described by a [Scenario].  What the window
    script answers is read off its text: the command fails when the
    application cannot be activated, and otherwise prints [true] or [false]
    according to the number of windows of its process. *)

Module Demo.

Record Scenario := {
  activates : bool;                    (* the application can be activated *)
  windows : nat;                       (* windows its process exposes *)
  window_capture : Completion string;  (* how screencapture -o -w ends *)
  running : string;                    (* what the listing script prints *)
  recognized : Completion string       (* how worker.recognize ends *)
}.

Definition window_script_answer (sc : Scenario) : Completion string :=
  if activates sc
  then Normal ((if (0 <? windows sc)%nat then "true" else "false") +:+ Js.newline)
  else Throw (Err "Command failed: osascript (application is not running)").

(** The path between the quotes of a [screencapture -o -w] command. *)
Definition quoted_path (command : string) : string :=
  String.substring 21 (String.length command - 22) command.

Definition pixels : bytes := bytes_of_string "raw pixels".

Definition world (sc : Scenario) : World := {|
  homedir := "/Users/ada";
  path_join := fun dir file => dir +:+ "/" +:+ file;
  now_iso := fun _ => "2025-07-04T10:20:30.456Z";
  mkdir_out := fun _ _ => Normal tt;
  screenshot_out := fun _ _ _ => Normal pixels;
  sharp_encode_out := fun _ format input =>
    Normal (bytes_of_string (format_str format +:+ ":") ++ input)%list;
  sharp_ocr_out := fun _ input => Normal input;
  write_out := fun _ _ _ => Normal tt;
  exec_out := fun _ command =>
    if String.eqb command (osascript list_script) then Normal (running sc)
    else if String.prefix "osascript" command then window_script_answer sc
    else window_capture sc;
  exec_files := fun st command =>
    if String.prefix "screencapture" command && is_normal (window_capture sc)
    then <[quoted_path command := bytes_of_string "window pixels"]> (files st)
    else files st;
  worker_out := fun _ _ => Normal 1%nat;
  recognize_out := fun _ _ _ => recognized sc;
  terminate_out := fun _ _ => Normal tt
|}.

Definition boot : Machine := {| files := ∅; trace := [] |}.

(** An application that activates and shows one window. *)
Definition one_window : Scenario := {|
  activates := true;
  windows := 1;
  window_capture := Normal EmptyString;
  running := "Finder, Safari" +:+ Js.newline;
  recognized := Normal ("HELLO WORLD" +:+ Js.newline)
|}.

(** An application that activates but has no window. *)
Definition no_window : Scenario := {|
  activates := true;
  windows := 0;
  window_capture := Normal EmptyString;
  running := "Finder, Safari" +:+ Js.newline;
  recognized := Normal ("HELLO WORLD" +:+ Js.newline)
|}.

(** An application that cannot be activated. *)
Definition not_running : Scenario := {|
  activates := false;
  windows := 0;
  window_capture := Normal EmptyString;
  running := "Finder, Safari" +:+ Js.newline;
  recognized := Normal ("HELLO WORLD" +:+ Js.newline)
|}.

(** Two processes of the same name are running. *)
Definition twice_running : Scenario := {|
  activates := true;
  windows := 1;
  window_capture := Normal EmptyString;
  running := "Finder, Finder" +:+ Js.newline;
  recognized := Normal ("HELLO WORLD" +:+ Js.newline)
|}.

(** A blank screen: the engine finds no text. *)
Definition blank_screen : Scenario := {|
  activates := true;
  windows := 1;
  window_capture := Normal EmptyString;
  running := "Finder, Safari" +:+ Js.newline;
  recognized := Normal (" " +:+ Js.newline)
|}.

Definition no_options : CaptureOptions :=
  {| opt_display := None; opt_format := None; opt_applicationName := None |}.

(** What a full-screen capture of display 0 as png returns on this desktop. *)
Definition display_shot : ScreenshotResult := {|
  path := "/Users/ada/Desktop/mcp-screenshots/screenshot-display-0-2025-07-04T10-20-30-456Z.png";
  base64 := "cG5nOnJhdyBwaXhlbHM=";
  buffer := bytes_of_string "png:raw pixels"
|}.

(** A tool call that carries no [arguments] object. *)
Definition bare_request (tool : string) : CallToolRequest :=
  {| tool_name := tool; tool_arguments := None |}.

(** Collaborators that refuse: each fault, when set, is the message of the
    error the collaborator throws on every call. *)
Record Faults := {
  mkdir_fault : option string;
  screenshot_fault : option string;
  encode_fault : option string;
  write_fault : option string;
  worker_fault : option string;
  terminate_fault : option string
}.

Definition no_fault : Faults := {|
  mkdir_fault := None; screenshot_fault := None; encode_fault := None;
  write_fault := None; worker_fault := None; terminate_fault := None
|}.

Definition unless {A} (fault : option string) (answer : Completion A) : Completion A :=
  match fault with
  | Some reason => Throw (Err reason)
  | None => answer
  end.

(** The desktop of [world], with the faults of [f]. *)
Definition faulty_world (sc : Scenario) (f : Faults) : World := {|
  homedir := homedir (world sc);
  path_join := path_join (world sc);
  now_iso := now_iso (world sc);
  mkdir_out := fun st dir => unless (mkdir_fault f) (mkdir_out (world sc) st dir);
  screenshot_out := fun st screen format =>
    unless (screenshot_fault f) (screenshot_out (world sc) st screen format);
  sharp_encode_out := fun st format input =>
    unless (encode_fault f) (sharp_encode_out (world sc) st format input);
  sharp_ocr_out := sharp_ocr_out (world sc);
  write_out := fun st file data =>
    unless (write_fault f) (write_out (world sc) st file data);
  exec_out := exec_out (world sc);
  exec_files := exec_files (world sc);
  worker_out := fun st language =>
    unless (worker_fault f) (worker_out (world sc) st language);
  recognize_out := recognize_out (world sc);
  terminate_out := fun st worker =>
    unless (terminate_fault f) (terminate_out (world sc) st worker)
|}.

(** The engine cannot read the screen. *)
Definition unreadable_screen : Scenario := {|
  activates := true;
  windows := 1;
  window_capture := Normal EmptyString;
  running := "Finder, Safari" +:+ Js.newline;
  recognized := Throw (Err "recognition failed")
|}.

(** The listing script prints nothing. *)
Definition nothing_running : Scenario := {|
  activates := true;
  windows := 1;
  window_capture := Normal EmptyString;
  running := Js.newline;
  recognized := Normal ("HELLO WORLD" +:+ Js.newline)
|}.

(** The desktop folder cannot be written to. *)
Definition read_only_desktop : Faults := {|
  mkdir_fault := Some "EACCES: permission denied";
  screenshot_fault := None; encode_fault := None;
  write_fault := None; worker_fault := None;
  terminate_fault := None
|}.

(** The engine refuses to be released. *)
Definition stuck_engine : Faults := {|
  mkdir_fault := None; screenshot_fault := None;
  encode_fault := None; write_fault := None;
  worker_fault := None;
  terminate_fault := Some "worker already terminated"
|}.

(** No display can be captured. *)
Definition dark_screen : Faults := {|
  mkdir_fault := None;
  screenshot_fault := Some "no display";
  encode_fault := None; write_fault := None;
  worker_fault := None; terminate_fault := None
|}.

(** What the capture of the Finder window as png returns on this desktop. *)
Definition window_shot : ScreenshotResult := {|
  path := "/Users/ada/Desktop/mcp-screenshots/Finder-2025-07-04T10-20-30-456Z.png";
  base64 := "cG5nOndpbmRvdyBwaXhlbHM=";
  buffer := bytes_of_string "png:window pixels"
|}.

Definition no_text_options : CaptureTextOptions :=
  {| cto_display := None; cto_language := None; cto_applicationName := None |}.

End Demo.

(** ** Reading traces *)

Local Open Scope list_scope.

(** The calls issued between two machines of one run. *)
Definition issued (st st' : Machine) : list Event :=
  drop (length (trace st)) (trace st').

Definition failed (ev : Event) : bool :=
  match ev with
  | EvMkdir _ r => negb (is_normal r)
  | EvScreenshot _ _ r => negb (is_normal r)
  | EvSharpEncode _ _ r => negb (is_normal r)
  | EvSharpOcr _ r => negb (is_normal r)
  | EvWriteFile _ _ r => negb (is_normal r)
  | EvReadFile _ r => negb (is_normal r)
  | EvExec _ r => negb (is_normal r)
  | EvCreateWorker _ r => negb (is_normal r)
  | EvRecognize _ _ r => negb (is_normal r)
  | EvTerminate _ r => negb (is_normal r)
  | EvNow _ | EvSleep _ | EvLog _ => false
  end.

Definition is_terminate (ev : Event) : bool :=
  match ev with
  | EvTerminate _ _ => true
  | _ => false
  end.

(** How many times an engine was released in a stretch of trace. *)
Definition terminations (evs : list Event) : nat :=
  length (List.filter is_terminate evs).

(** A child process that ended in failure. *)
Definition exec_failed (ev : Event) : bool :=
  match ev with
  | EvExec _ (Throw _) => true
  | _ => false
  end.

(** A capture of the whole of some display. *)
Definition is_screenshot (ev : Event) : bool :=
  match ev with
  | EvScreenshot _ _ _ => true
  | _ => false
  end.

Definition result_path (c : Completion ScreenshotResult) : option string :=
  match c with
  | Normal r => Some (path r)
  | Throw _ => None
  end.

(** Calls that touch the disk, the screen, a child process or the engine:
    everything but the clock, the timer and the diagnostic log. *)
Definition is_io (ev : Event) : bool :=
  match ev with
  | EvNow _ | EvSleep _ | EvLog _ => false
  | _ => true
  end.

(** The call asks for no lossy capture and no lossy encoding. *)
Definition lossless_only (ev : Event) : Prop :=
  match ev with
  | EvScreenshot _ format _ => format = Png
  | EvSharpEncode format _ _ => format = Png
  | _ => True
  end.

(** A preprocessing for recognition, if the call is one, is given [data]. *)
Definition ocr_reads (data : bytes) (ev : Event) : Prop :=
  match ev with
  | EvSharpOcr input _ => input = data
  | _ => True
  end.

(** The machine moves along [R] whatever the computation does. *)
Definition steps (R : relation Machine) {A} (m : M A) : Prop :=
  forall st, R st (snd (m st)).

(** The trace only grows. *)
Definition extends (st st' : Machine) : Prop :=
  exists evs, trace st' = trace st ++ evs.

(** The trace grows by calls that all satisfy [P]. *)
Definition extends_by (P : Event -> Prop) (st st' : Machine) : Prop :=
  exists evs, trace st' = trace st ++ evs /\ Forall P evs.

Definition same_files (st st' : Machine) : Prop := files st' = files st.

(** A computation that throws only after a collaborator failed. *)
Definition honest {A} (m : M A) : Prop :=
  forall st,
    extends st (snd (m st)) /\
    (is_normal (fst (m st)) = false ->
     existsb failed (issued st (snd (m st))) = true).

(** The result is on disk and its two views agree. *)
Definition persisted (r : ScreenshotResult) (st : Machine) : Prop :=
  (exists data, files st !! path r = Some data /\ length data = length (buffer r)) /\
  base64 r = Base64.encode (buffer r) /\
  exists earlier, trace st = earlier ++ [EvWriteFile (path r) (buffer r) (Normal tt)].

(** A write that went through. *)
Definition wrote (ev : Event) : bool :=
  match ev with
  | EvWriteFile _ _ (Normal _) => true
  | _ => false
  end.

Definition is_mkdir (ev : Event) : bool :=
  match ev with
  | EvMkdir _ _ => true
  | _ => false
  end.

(** A call to the recognition engine. *)
Definition is_worker (ev : Event) : bool :=
  match ev with
  | EvCreateWorker _ _ | EvRecognize _ _ _ | EvTerminate _ _ => true
  | _ => false
  end.

(** Calls a capture of a display has no use for: child processes, file
    reads and the recognition engine. *)
Definition off_display (ev : Event) : bool :=
  match ev with
  | EvExec _ _ | EvReadFile _ _ | EvSharpOcr _ _ => true
  | _ => is_worker ev
  end.

Fixpoint string_forallb (p : ascii -> bool) (s : string) : bool :=
  match s with
  | EmptyString => true
  | String c s' => p c && string_forallb p s'
  end.

Definition colon_or_dot (c : ascii) : bool :=
  (Ascii.eqb c ":" || Ascii.eqb c ".")%bool.

(** The options [captureScreenAndExtractText] hands to [captureScreen]. *)
Definition options_of (options : CaptureTextOptions) : CaptureOptions :=
  {| opt_display := Some (default 0%Z (cto_display options));
     opt_format := Some Png;
     opt_applicationName := cto_applicationName options |}.

(** A tool call with an [arguments] object. *)
Definition request (tool : string) (args : ToolArguments) : CallToolRequest :=
  {| tool_name := tool; tool_arguments := Some args |}.

(** The error response of the handler for [reason], and the machine after
    its diagnostic line. *)
Definition refusal (tool reason : string) (st : Machine)
  : Completion CallToolResult * Machine :=
  (Normal {| content := [TextContent (error_text tool reason)];
             isError := Some true |},
   emit (EvLog (error_text tool reason)) st).

(** The tools whose response carries an image. *)
Definition image_tool (tool : string) : bool :=
  (String.eqb tool "capture_screen"
   || String.eqb tool "capture_application_screen"
   || String.eqb tool "capture_screen_and_extract_text")%bool.

(** The response of a handler run (the handler never throws). *)
Definition reply_of (run : Completion CallToolResult * Machine) : CallToolResult :=
  match fst run with
  | Normal response => response
  | Throw _ => {| content := []; isError := Some true |}
  end.

(** One text item first, at most one image after it, and an error flag
    that is either absent or set on a lone text item. *)
Definition well_shaped (response : CallToolResult) : Prop :=
  exists summary rest,
    content response = TextContent summary :: rest /\
    (rest = [] \/ exists data mime, rest = [ImageContent data mime]) /\
    (isError response = None \/ (isError response = Some true /\ rest = [])).

(** How the outer [catch] of [captureApplicationScreen] passes on what the
    fallback capture did. *)
Definition passed_on (run : Completion ScreenshotResult * Machine)
  : Completion ScreenshotResult * Machine :=
  match run with
  | (Normal r, st') => (Normal r, st')
  | (Throw e, st') =>
      (Throw (Err ("Failed to capture application screen: " +:+ message e)), st')
  end.

(** ** Sanity checks of the string and buffer helpers *)

Example trim_ex :
  Js.trim ("  Hello" +:+ Js.newline +:+ "World " +:+ Js.newline) =
  "Hello" +:+ Js.newline +:+ "World".
Proof. reflexivity. Qed.

Example split_ex1 : Js.split ", " "Finder, Safari, Terminal" = ["Finder"; "Safari"; "Terminal"].
Proof. reflexivity. Qed.

Example split_ex2 : Js.split ", " "" = [""].
Proof. reflexivity. Qed.

Example split_ex3 : Js.split ", " "a,b, , c, " = ["a,b"; ""; "c"; ""].
Proof. reflexivity. Qed.

Example of_Z_ex : (Js.of_Z 0, Js.of_Z 12, Js.of_Z (-3)) = ("0", "12", "-3").
Proof. reflexivity. Qed.

Example replace_ex :
  Js.replace_colon_dot "2025-07-04T10:20:30.456Z" = "2025-07-04T10-20-30-456Z".
Proof. reflexivity. Qed.

Example base64_ex1 : Base64.encode (bytes_of_string "Man") = "TWFu".
Proof. reflexivity. Qed.

Example base64_ex2 : Base64.encode (bytes_of_string "Ma") = "TWE=".
Proof. reflexivity. Qed.

Example base64_ex3 : Base64.encode (bytes_of_string "light w") = "bGlnaHQgdw==".
Proof. reflexivity. Qed.

Example captureScreen_without_name w display format :
  captureScreen w {| opt_display := Some display; opt_format := Some format;
                     opt_applicationName := None |}
  = captureDisplay w display format.
Proof. reflexivity. Qed.

(** ** Laws of the monad *)

Section MonadLaws.

Context {A B : Type}.

Lemma bind_normal (m : M A) (k : A -> M B) st b st' :
  bind m k st = (Normal b, st') ->
  exists a st1, m st = (Normal a, st1) /\ k a st1 = (Normal b, st').
Proof.
  unfold bind. destruct (m st) as [[a|e] st1]; intros H.
  - eauto.
  - discriminate.
Qed.

Lemma bind_throw (m : M A) (k : A -> M B) st e st' :
  bind m k st = (Throw e, st') ->
  m st = (Throw e, st') \/
  exists a st1, m st = (Normal a, st1) /\ k a st1 = (Throw e, st').
Proof.
  unfold bind. destruct (m st) as [[a|e0] st1]; intros H.
  - right. eauto.
  - left. inversion H. reflexivity.
Qed.

Lemma try_catch_normal (body : M A) (handler : JsError -> M A) st a st' :
  try_catch body handler st = (Normal a, st') ->
  body st = (Normal a, st') \/
  exists e st1, body st = (Throw e, st1) /\ handler e st1 = (Normal a, st').
Proof.
  unfold try_catch. destruct (body st) as [[a0|e] st1]; intros H.
  - left. exact H.
  - right. eauto.
Qed.

Lemma try_catch_rethrow_normal (body : M A) (f : JsError -> JsError) st a st' :
  try_catch body (fun e => throw (f e)) st = (Normal a, st') ->
  body st = (Normal a, st').
Proof.
  intros H. apply try_catch_normal in H as [H | (e & st1 & _ & H)].
  - exact H.
  - discriminate.
Qed.

End MonadLaws.

Section Steps.

Context (R : relation Machine) `{!PreOrder R}.

Lemma steps_ret {A} (a : A) : steps R (ret a).
Proof. intros st. simpl. reflexivity. Qed.

Lemma steps_throw {A} e : steps R (@throw A e).
Proof. intros st. simpl. reflexivity. Qed.

Lemma steps_bind {A B} (m : M A) (k : A -> M B) :
  steps R m -> (forall a, steps R (k a)) -> steps R (bind m k).
Proof.
  intros Hm Hk st. unfold bind. specialize (Hm st).
  destruct (m st) as [[a|e] st1]; simpl in *.
  - etransitivity; [exact Hm | apply Hk].
  - exact Hm.
Qed.

Lemma steps_try_catch {A} (body : M A) handler :
  steps R body -> (forall e, steps R (handler e)) -> steps R (try_catch body handler).
Proof.
  intros Hb Hh st. unfold try_catch. specialize (Hb st).
  destruct (body st) as [[a|e] st1]; simpl in *.
  - exact Hb.
  - etransitivity; [exact Hb | apply Hh].
Qed.

Lemma steps_try_finally {A} (body : M A) fin :
  steps R body -> steps R fin -> steps R (try_finally body fin).
Proof.
  intros Hb Hf st. unfold try_finally. specialize (Hb st).
  destruct (body st) as [c st1]. specialize (Hf st1). simpl in *.
  destruct (fin st1) as [[u|e] st2]; simpl in *; etransitivity; eauto.
Qed.

End Steps.

#[local] Instance extends_preorder : PreOrder extends.
Proof.
  split.
  - intros st. exists []. by rewrite app_nil_r.
  - intros st1 st2 st3 [e1 H1] [e2 H2]. exists (e1 ++ e2).
    by rewrite H2, H1, app_assoc.
Qed.

#[local] Instance extends_by_preorder P : PreOrder (extends_by P).
Proof.
  split.
  - intros st. exists []. split; [by rewrite app_nil_r | constructor].
  - intros st1 st2 st3 (e1 & H1 & F1) (e2 & H2 & F2). exists (e1 ++ e2).
    split; [by rewrite H2, H1, app_assoc | by apply Forall_app].
Qed.

#[local] Instance same_files_preorder : PreOrder same_files.
Proof.
  split.
  - intros st. reflexivity.
  - intros st1 st2 st3 H1 H2. unfold same_files in *. congruence.
Qed.

Lemma issued_app st st' evs :
  trace st' = trace st ++ evs -> issued st st' = evs.
Proof. intros H. unfold issued. rewrite H. apply drop_app_length. Qed.

Lemma extends_by_one (P : Event -> Prop) st fs ev :
  P ev -> extends_by P st {| files := fs; trace := trace st ++ [ev] |}.
Proof. intros H. exists [ev]. split; [reflexivity | by repeat constructor]. Qed.

(** *** What each collaborator call does to the trace and to the disk *)

Section CollaboratorSteps.

Context (w : World) (P : Event -> Prop).

Lemma extern_by {A} (answer : Machine -> Completion A) ev :
  (forall r, P (ev r)) -> steps (extends_by P) (extern answer ev).
Proof. intros H st. apply extends_by_one, H. Qed.

Lemma extern_files {A} (answer : Machine -> Completion A) ev :
  steps same_files (extern answer ev).
Proof. intros st. reflexivity. Qed.

Lemma console_error_by line : P (EvLog line) -> steps (extends_by P) (console_error line).
Proof. intros H st. by apply extends_by_one. Qed.

Lemma console_error_files line : steps same_files (console_error line).
Proof. intros st. reflexivity. Qed.

Lemma sleep_by ms : P (EvSleep ms) -> steps (extends_by P) (sleep ms).
Proof. intros H st. by apply extends_by_one. Qed.

Lemma date_now_by : (forall iso, P (EvNow iso)) -> steps (extends_by P) (date_now_iso w).
Proof. intros H st. apply extends_by_one, H. Qed.

Lemma writeFile_by file data :
  (forall r, P (EvWriteFile file data r)) -> steps (extends_by P) (fs_writeFile w file data).
Proof. intros H st. apply extends_by_one, H. Qed.

Lemma execAsync_by command :
  (forall r, P (EvExec command r)) -> steps (extends_by P) (execAsync w command).
Proof. intros H st. apply extends_by_one, H. Qed.

End CollaboratorSteps.

(** Walks through a computation built from the combinators above. *)
Ltac walk :=
  repeat first
    [ apply steps_ret; apply _
    | apply steps_throw; apply _
    | apply steps_bind; [ apply _ | | intros ? ]
    | apply steps_try_catch; [ apply _ | | intros ? ]
    | apply steps_try_finally; [ apply _ | | ]
    | apply extern_files
    | apply console_error_files
    | apply extern_by; intros ?; done
    | apply console_error_by; done
    | apply sleep_by; done
    | apply date_now_by; intros ?; done
    | apply writeFile_by; intros ?; done
    | apply execAsync_by; intros ?; done
    | match goal with
      | |- steps _ (match ?x with _ => _ end) => destruct x
      end ].

Section ToolsSteps.

Context (w : World).

Lemma extractTextFromImage_files input language :
  steps same_files (extractTextFromImage w input language).
Proof.
  unfold extractTextFromImage, createWorker, fs_readFile, sharp_ocr,
    worker_recognize, worker_terminate.
  walk.
Qed.

Lemma captureScreenAndExtractText_lossless options :
  steps (extends_by lossless_only) (captureScreenAndExtractText w options).
Proof.
  unfold captureScreenAndExtractText, captureScreen, captureApplicationScreen,
    captureDisplay, extractTextFromImage, createScreenshotsFolder, timestamp_now,
    screenshot, sharp_encode, sharp_ocr, fs_mkdir, fs_readFile, createWorker,
    worker_recognize, worker_terminate.
  cbn [default opt_display opt_format opt_applicationName].
  walk.
Qed.

Lemma tool_capture_screen_and_extract_text_lossless args :
  steps (extends_by lossless_only) (tool_capture_screen_and_extract_text w args).
Proof.
  unfold tool_capture_screen_and_extract_text.
  apply steps_bind; [ apply _ | by apply console_error_by | intros _ ].
  apply steps_bind; [ apply _ | apply captureScreenAndExtractText_lossless | intros r ].
  apply steps_ret; apply _.
Qed.

End ToolsSteps.

(** ** Successful captures

    What a capture that returns normally has done, call by call. *)

(** Case analysis on the next collaborator answer a run depends on. *)
Ltac next_answer H :=
  match type of H with
  | context [match ?c with _ => _ end] =>
      lazymatch c with
      | context [match _ with _ => _ end] => fail
      | _ => destruct c eqn:?
      end
  end.

Ltac expose_in H :=
  unfold createScreenshotsFolder, timestamp_now,
    fs_mkdir, date_now_iso, screenshot, sharp_encode, sharp_ocr, fs_writeFile, fs_readFile,
    execAsync, createWorker, worker_recognize, worker_terminate,
    console_error, sleep, extern, bind, try_catch, try_finally, ret, throw, emit in H;
  cbn [fst snd files trace is_normal] in H.

Section Success.

Context (w : World).

Lemma createScreenshotsFolder_normal st folder st' :
  createScreenshotsFolder w st = (Normal folder, st') ->
  folder = screenshotsFolder w /\
  files st' = files st /\
  trace st' = trace st ++ [EvMkdir (screenshotsFolder w) (Normal tt)].
Proof.
  intros H. expose_in H. next_answer H; [ | discriminate ].
  inversion H; subst; clear H. destruct a. auto.
Qed.

Lemma captureDisplay_success display format st r st' :
  captureDisplay w display format st = (Normal r, st') ->
  exists raw iso,
    trace st' = trace st ++
      [ EvScreenshot display format (Normal raw);
        EvSharpEncode format raw (Normal (buffer r));
        EvMkdir (screenshotsFolder w) (Normal tt);
        EvNow iso;
        EvWriteFile (path r) (buffer r) (Normal tt) ] /\
    path r = path_join w (screenshotsFolder w)
               (display_filename display (Js.replace_colon_dot iso) format) /\
    base64 r = Base64.encode (buffer r) /\
    files st' = <[path r := buffer r]> (files st).
Proof.
  intros H. unfold captureDisplay in H. expose_in H.
  repeat (next_answer H; cbn [fst snd files trace is_normal] in H; try discriminate).
  inversion H; subst; clear H. cbn [path buffer base64 files trace].
  repeat match goal with u : unit |- _ => destruct u end.
  eexists _, _. rewrite <- !app_assoc. cbn [app]. eauto.
Qed.

Lemma captureApplicationScreen_success name format st r st' :
  captureApplicationScreen w name format st = (Normal r, st') ->
  (exists iso out1 out2 raw,
     trace st' = trace st ++
       [ EvMkdir (screenshotsFolder w) (Normal tt);
         EvNow iso;
         EvExec (osascript (window_script name)) (Normal out1);
         EvSleep 500;
         EvExec (screencapture_window (path r)) (Normal out2);
         EvReadFile (path r) (Normal raw);
         EvSharpEncode format raw (Normal (buffer r));
         EvWriteFile (path r) (buffer r) (Normal tt) ] /\
     path r = path_join w (screenshotsFolder w)
                (application_filename name (Js.replace_colon_dot iso) format) /\
     base64 r = Base64.encode (buffer r) /\
     files st' !! path r = Some (buffer r))
  \/
  (exists pre raw iso,
     trace st' = trace st ++ pre ++
       [ EvScreenshot 0 format (Normal raw);
         EvSharpEncode format raw (Normal (buffer r));
         EvMkdir (screenshotsFolder w) (Normal tt);
         EvNow iso;
         EvWriteFile (path r) (buffer r) (Normal tt) ] /\
     existsb exec_failed pre = true /\
     path r = path_join w (screenshotsFolder w)
                (display_filename 0 (Js.replace_colon_dot iso) format) /\
     base64 r = Base64.encode (buffer r) /\
     files st' !! path r = Some (buffer r)).
Proof.
  intros H. unfold captureApplicationScreen, captureDisplay, read_answer in H.
  expose_in H. unfold read_answer in H.
  repeat (next_answer H; cbn [fst snd files trace is_normal] in H; try discriminate).
  all: inversion H; subst; clear H; cbn [path buffer base64 files trace].
  all: repeat match goal with u : unit |- _ => destruct u end.
  all: rewrite <- !app_assoc; cbn [app].
  - left. eexists _, _, _, _. rewrite lookup_insert_eq. eauto.
  - right. eexists [_; _; _; _; _; _], _, _. rewrite lookup_insert_eq.
    cbn [app existsb exec_failed orb]. eauto.
  - right. eexists [_; _; _; _], _, _. rewrite lookup_insert_eq.
    cbn [app existsb exec_failed orb]. eauto.
Qed.

End Success.

(** ** Throwing only after a collaborator failed *)

Lemma honest_intro {A} (m : M A) :
  (forall st, exists evs,
      trace (snd (m st)) = trace st ++ evs /\
      (is_normal (fst (m st)) = false -> existsb failed evs = true)) ->
  honest m.
Proof.
  intros H st. destruct (H st) as (evs & Ht & Hf). split.
  - by exists evs.
  - intros Hn. rewrite (issued_app _ _ _ Ht). auto.
Qed.

Lemma honest_elim {A} (m : M A) st :
  honest m ->
  exists evs,
    trace (snd (m st)) = trace st ++ evs /\
    (is_normal (fst (m st)) = false -> existsb failed evs = true).
Proof.
  intros H. destruct (H st) as [[evs Ht] Hf]. exists evs. split; [done |].
  intros Hn. rewrite <- (issued_app _ _ _ Ht). auto.
Qed.

Lemma honest_ret {A} (a : A) : honest (ret a).
Proof.
  apply honest_intro. intros st. exists []. simpl. split; [by rewrite app_nil_r | done].
Qed.

Lemma honest_bind {A B} (m : M A) (k : A -> M B) :
  honest m -> (forall a, honest (k a)) -> honest (bind m k).
Proof.
  intros Hm Hk. apply honest_intro. intros st.
  destruct (honest_elim m st Hm) as (e1 & H1 & F1). unfold bind.
  destruct (m st) as [[a|e] st1]; simpl in *.
  - destruct (honest_elim (k a) st1 (Hk a)) as (e2 & H2 & F2).
    exists (e1 ++ e2). split; [by rewrite H2, H1, app_assoc |].
    intros Hn. rewrite existsb_app, (F2 Hn). apply orb_true_r.
  - exists e1. auto.
Qed.

Lemma honest_try_catch {A} (body : M A) handler :
  honest body -> (forall e, steps extends (handler e)) ->
  honest (try_catch body handler).
Proof.
  intros Hb Hh. apply honest_intro. intros st.
  destruct (honest_elim body st Hb) as (e1 & H1 & F1). unfold try_catch.
  destruct (body st) as [[a|e] st1]; simpl in *.
  - exists e1. auto.
  - destruct (Hh e st1) as [e2 H2]. exists (e1 ++ e2).
    split; [by rewrite H2, H1, app_assoc |].
    intros _. rewrite existsb_app, F1; done.
Qed.

Lemma honest_try_finally {A} (body : M A) fin :
  honest body -> honest fin -> honest (try_finally body fin).
Proof.
  intros Hb Hf. apply honest_intro. intros st.
  destruct (honest_elim body st Hb) as (e1 & H1 & F1). unfold try_finally.
  destruct (body st) as [c st1]; simpl in *.
  destruct (honest_elim fin st1 Hf) as (e2 & H2 & F2).
  destruct (fin st1) as [[u|e] st2]; simpl in *.
  - exists (e1 ++ e2). split; [by rewrite H2, H1, app_assoc |].
    intros Hn. rewrite existsb_app, (F1 Hn). done.
  - exists (e1 ++ e2). split; [by rewrite H2, H1, app_assoc |].
    intros _. rewrite existsb_app, F2; [apply orb_true_r | done].
Qed.

Lemma honest_one {A} (m : M A) :
  (forall st, exists ev,
      trace (snd (m st)) = trace st ++ [ev] /\
      failed ev = negb (is_normal (fst (m st)))) ->
  honest m.
Proof.
  intros H. apply honest_intro. intros st. destruct (H st) as (ev & Ht & Hf).
  exists [ev]. split; [done |]. intros Hn. simpl. rewrite Hf, Hn. done.
Qed.

Lemma honest_extern {A} (answer : Machine -> Completion A) ev :
  (forall r, failed (ev r) = negb (is_normal r)) -> honest (extern answer ev).
Proof. intros H. apply honest_one. intros st. eexists. split; [done | apply H]. Qed.

Lemma honest_writeFile w file data : honest (fs_writeFile w file data).
Proof. apply honest_one. intros st. eexists. split; done. Qed.

Lemma honest_execAsync w command : honest (execAsync w command).
Proof. apply honest_one. intros st. eexists. split; done. Qed.

Lemma honest_console_error line : honest (console_error line).
Proof. apply honest_one. intros st. eexists. split; done. Qed.

Lemma honest_sleep ms : honest (sleep ms).
Proof. apply honest_one. intros st. eexists. split; done. Qed.

Lemma honest_date_now w : honest (date_now_iso w).
Proof. apply honest_one. intros st. eexists. split; done. Qed.

Lemma honest_steps {A} (m : M A) : honest m -> steps extends m.
Proof. intros H st. apply H. Qed.

(** A handler that throws a new error, or that only logs and goes on, keeps
    the trace growing; that is all [honest_try_catch] asks of it. *)
Ltac honestly :=
  repeat first
    [ apply honest_ret
    | apply honest_bind; [ | intros ? ]
    | apply honest_try_finally
    | apply honest_try_catch; [ | intros ?; first [ apply steps_throw; apply _ | apply honest_steps ] ]
    | apply honest_extern; intros ?; done
    | apply honest_writeFile
    | apply honest_execAsync
    | apply honest_console_error
    | apply honest_sleep
    | apply honest_date_now
    | match goal with
      | |- honest (match ?x with _ => _ end) => destruct x
      end ].


(** ** Trimming *)

Lemma trimStart_first s c :
  Js.first_char (Js.trimStart s) = Some c -> Js.is_space c = false.
Proof.
  induction s as [|a s IH]; simpl; [discriminate |].
  destruct (Js.is_space a) eqn:Ha; [exact IH |].
  simpl. intros [= <-]. exact Ha.
Qed.

Lemma trimEnd_last s c :
  Js.last_char (Js.trimEnd s) = Some c -> Js.is_space c = false.
Proof.
  induction s as [|a s IH]; simpl; [discriminate |].
  destruct (Js.trimEnd s) as [|b t] eqn:Ht.
  - destruct (Js.is_space a) eqn:Ha; simpl; [discriminate |].
    intros [= <-]. exact Ha.
  - exact IH.
Qed.

Lemma trimEnd_first s c :
  Js.first_char s = Some c -> Js.is_space c = false ->
  Js.first_char (Js.trimEnd s) = Some c.
Proof.
  destruct s as [|a s]; simpl; [discriminate |].
  intros [= ->] Hc. destruct (Js.trimEnd s); [rewrite Hc |]; reflexivity.
Qed.

Lemma trimEnd_empty s : Js.trimEnd s = EmptyString -> Js.all_space s = true.
Proof.
  induction s as [|a s IH]; simpl; [reflexivity |].
  destruct (Js.trimEnd s) eqn:Ht; [| discriminate].
  destruct (Js.is_space a); [intros _; by apply IH | discriminate].
Qed.

Lemma trim_trimmed s : Js.trimmed (Js.trim s).
Proof.
  unfold Js.trimmed, Js.trim. split; intros c Hc.
  - destruct (Js.first_char (Js.trimStart s)) as [c0|] eqn:H0.
    + pose proof (trimStart_first _ _ H0) as Hs.
      rewrite (trimEnd_first _ _ H0 Hs) in Hc. by injection Hc as <-.
    + destruct (Js.trimStart s); [discriminate | discriminate].
  - by apply trimEnd_last in Hc.
Qed.

Lemma trimStart_all_space s : Js.all_space s = true -> Js.trimStart s = EmptyString.
Proof.
  induction s as [|a s IH]; simpl; [reflexivity |].
  destruct (Js.is_space a); simpl; [exact IH | discriminate].
Qed.

Lemma trim_all_space s : Js.all_space s = true -> Js.trim s = EmptyString.
Proof. intros H. unfold Js.trim. by rewrite trimStart_all_space. Qed.

(** ** Recognition *)

Ltac next_answer_goal :=
  match goal with
  | |- context [match ?c with _ => _ end] =>
      lazymatch c with
      | context [match _ with _ => _ end] => fail
      | _ => destruct c eqn:?
      end
  end.

Ltac expose :=
  unfold createScreenshotsFolder, timestamp_now,
    fs_mkdir, date_now_iso, screenshot, sharp_encode, sharp_ocr, fs_writeFile, fs_readFile,
    execAsync, createWorker, worker_recognize, worker_terminate,
    console_error, sleep, extern, bind, try_catch, try_finally, ret, throw, emit;
  cbn [fst snd files trace is_normal].

Section Recognition.

Context (w : World).

Lemma extractTextFromImage_success input language st r st' :
  extractTextFromImage w input language st = (Normal r, st') ->
  exists worker data image t,
    issued st st' =
      EvCreateWorker language (Normal worker)
      :: match input with
         | inl _ => []
         | inr file => [EvReadFile file (Normal data)]
         end
      ++ [ EvSharpOcr data (Normal image);
           EvRecognize worker image (Normal t);
           EvTerminate worker (Normal tt) ] /\
    match input with
    | inl given => data = given
    | inr file => files st !! file = Some data
    end /\
    r = Js.trim t.
Proof.
  intros H. unfold extractTextFromImage in H. destruct input as [given|file].
  all: expose_in H; unfold read_answer in H; cbn [files] in H.
  all: repeat (next_answer H; cbn [fst snd files trace is_normal] in H; try discriminate).
  all: inversion H; subst; clear H; unfold issued; cbn [trace].
  all: repeat match goal with u : unit |- _ => destruct u end.
  all: rewrite <- !app_assoc, drop_app_length; cbn [app].
  all: eexists _, _, _, _; eauto.
Qed.

Lemma extractTextFromImage_honest input language :
  honest (extractTextFromImage w input language).
Proof.
  unfold extractTextFromImage, createWorker, fs_readFile, sharp_ocr,
    worker_recognize, worker_terminate.
  honestly.
Qed.

End Recognition.


(** ** Captures on disk *)

Lemma persisted_intro r st' earlier :
  files st' !! path r = Some (buffer r) ->
  base64 r = Base64.encode (buffer r) ->
  trace st' = earlier ++ [EvWriteFile (path r) (buffer r) (Normal tt)] ->
  persisted r st'.
Proof.
  intros Hf Hb Ht. repeat split.
  - by exists (buffer r).
  - exact Hb.
  - by exists earlier.
Qed.

Lemma captureDisplay_persisted w display format st r st' :
  captureDisplay w display format st = (Normal r, st') -> persisted r st'.
Proof.
  intros H. apply captureDisplay_success in H as (raw & iso & Ht & _ & Hb & Hf).
  eapply persisted_intro with (earlier := trace st ++ [_; _; _; _]).
  - rewrite Hf. apply lookup_insert_eq.
  - exact Hb.
  - rewrite Ht, <- app_assoc. reflexivity.
Qed.

Lemma captureApplicationScreen_persisted w name format st r st' :
  captureApplicationScreen w name format st = (Normal r, st') -> persisted r st'.
Proof.
  intros H. apply captureApplicationScreen_success in H
    as [(iso & o1 & o2 & raw & Ht & _ & Hb & Hf) | (pre & raw & iso & Ht & _ & _ & Hb & Hf)].
  - eapply persisted_intro with (earlier := trace st ++ [_; _; _; _; _; _; _]); eauto.
    rewrite Ht, <- app_assoc. reflexivity.
  - eapply persisted_intro with (earlier := trace st ++ pre ++ [_; _; _; _]); eauto.
    rewrite Ht, <- !app_assoc. reflexivity.
Qed.


Lemma captureScreen_encoded w options st r st' :
  captureScreen w options st = (Normal r, st') ->
  exists raw,
    In (EvSharpEncode (default Png (opt_format options)) raw (Normal (buffer r)))
       (issued st st').
Proof.
  unfold captureScreen. intros H.
  destruct (truthy_string (opt_applicationName options)).
  - apply captureApplicationScreen_success in H
      as [(iso & o1 & o2 & raw & Ht & _) | (pre & raw & iso & Ht & _)];
      exists raw; rewrite (issued_app _ _ _ Ht).
    + simpl. tauto.
    + apply in_or_app. right. simpl. tauto.
  - apply captureDisplay_success in H as (raw & iso & Ht & _).
    exists raw. rewrite (issued_app _ _ _ Ht). simpl. tauto.
Qed.

Lemma captureScreen_stored w options st r st' :
  captureScreen w options st = (Normal r, st') ->
  extends st st' /\
  files st' !! path r = Some (buffer r) /\
  base64 r = Base64.encode (buffer r).
Proof.
  unfold captureScreen. intros H.
  destruct (truthy_string (opt_applicationName options)).
  - apply captureApplicationScreen_success in H
      as [(? & ? & ? & ? & Ht & _ & Hb & Hf) | (? & ? & ? & Ht & _ & _ & Hb & Hf)];
      (split; [eexists; exact Ht | done]).
  - apply captureDisplay_success in H as (? & ? & Ht & _ & Hb & Hf).
    split; [eexists; exact Ht |]. split; [| done].
    rewrite Hf. apply lookup_insert_eq.
Qed.

Lemma issued_trans st st1 st2 :
  extends st st1 -> extends st1 st2 ->
  issued st st2 = issued st st1 ++ issued st1 st2.
Proof.
  intros [e1 H1] [e2 H2].
  rewrite (issued_app _ _ _ H1), (issued_app _ _ _ H2).
  apply issued_app. by rewrite H2, H1, app_assoc.
Qed.


(** ** Listing *)

Lemma mapi_from_length {A B} (f : A -> nat -> B) l i :
  length (Js.mapi_from i f l) = length l.
Proof. revert i. induction l as [|x l IH]; intros i; simpl; [done | by rewrite IH]. Qed.

Lemma mapi_from_lookup {A B} (f : A -> nat -> B) l i j y :
  Js.mapi_from i f l !! j = Some y ->
  exists x, l !! j = Some x /\ y = f x (i + j).
Proof.
  revert i j. induction l as [|x l IH]; intros i j; simpl; [done |].
  destruct j as [|j]; simpl.
  - intros [= <-]. exists x. by rewrite Nat.add_0_r.
  - intros H. apply IH in H as (x' & Hx & ->). exists x'.
    split; [done |]. f_equal. lia.
Qed.

Lemma mapi_from_names (l : list string) i :
  map name (Js.mapi_from i (fun name index => {| name := name; pid := index |}) l) = l.
Proof. revert i. induction l as [|x l IH]; intros i; simpl; [done | by rewrite IH]. Qed.

Lemma remove_dups_NoDup (l : list string) : NoDup l -> remove_dups l = l.
Proof.
  induction 1 as [|x l Hx _ IH]; simpl; [done |].
  destruct (decide_rel elem_of x l); [done | by rewrite IH].
Qed.


(** ** Strings inside strings *)

Lemma string_app_nil_r s : s +:+ EmptyString = s.
Proof.
  induction s as [|c s IH]; [reflexivity |].
  change (String c (s +:+ EmptyString) = String c s). by f_equal.
Qed.

Lemma string_app_assoc a b c : (a +:+ b) +:+ c = a +:+ (b +:+ c).
Proof.
  induction a as [|x a IH]; [reflexivity |].
  change (String x ((a +:+ b) +:+ c) = String x (a +:+ (b +:+ c))). by f_equal.
Qed.

Lemma contains_self s : Js.contains s s.
Proof. exists EmptyString, EmptyString. by rewrite string_app_nil_r. Qed.

Lemma contains_app_l s post : Js.contains (s +:+ post) s.
Proof. by exists EmptyString, post. Qed.

Lemma contains_app_r pre t s : Js.contains t s -> Js.contains (pre +:+ t) s.
Proof.
  intros (p & q & ->). exists (pre +:+ p), q. by rewrite string_app_assoc.
Qed.


(** ** The fallback of the application capture *)

Ltac no_failed_command :=
  unfold issued; cbn [trace]; rewrite <- ?app_assoc, drop_app_length; discriminate.

Ltac falls_back :=
  intros _;
  match goal with
  | |- context [captureDisplay _ _ _ ?s] =>
      eexists _, s; split; [ | split ];
      [ eexists; cbn [trace]; rewrite <- ?app_assoc; reflexivity
      | eexists; cbn [trace]; reflexivity
      | destruct (captureDisplay _ _ _ s) as [[? | ?] ?]; reflexivity ]
  end.

Lemma rejected_command_falls_back w name format st :
  existsb exec_failed
    (issued st (snd (captureApplicationScreen w name format st))) = true ->
  exists appError st1,
    extends st st1 /\
    (exists before,
       trace st1 = before ++
         [EvLog ("App-specific capture failed, falling back to full screen: "
                 +:+ error_to_string appError)]) /\
    captureApplicationScreen w name format st
    = passed_on (captureDisplay w 0 format st1).
Proof.
  unfold captureApplicationScreen. expose. unfold read_answer. cbn [files].
  destruct (mkdir_out w st (screenshotsFolder w)) as [[] | e0];
    cbn [fst snd files trace is_normal]; [ | no_failed_command ].
  destruct (exec_out w _ (osascript _)) as [o1 | e1];
    cbn [fst snd files trace is_normal]; [ | falls_back ].
  destruct (exec_out w _ (screencapture_window _)) as [o2 | e2];
    cbn [fst snd files trace is_normal]; [ | falls_back ].
  repeat (next_answer_goal; cbn [fst snd files trace is_normal]).
  all: no_failed_command.
Qed.

(** * The specification, property by property *)

(** C1.  [captureApplicationScreen] is to return the full-screen capture of
    display 0 when activation, the zero-window verification or the
    window-scoped capture fails.  The source falls back when one of its two
    commands is rejected ([rejected_command_falls_back]), but it never reads
    what the window script answers.  On the desktop [Demo.no_window] the
    application activates and has no window: the script prints [false], the
    command succeeds, and the function goes on to the window capture and
    returns the application-named file, without any full-screen capture and
    without any failed command. *)
Theorem zero_windows_is_not_treated_as_unavailable :
  let run :=
    captureApplicationScreen (Demo.world Demo.no_window) "Finder" Png Demo.boot in
  Demo.window_script_answer Demo.no_window = Normal ("false" +:+ Js.newline) /\
  result_path (fst run) =
    Some "/Users/ada/Desktop/mcp-screenshots/Finder-2025-07-04T10-20-30-456Z.png" /\
  existsb is_screenshot (issued Demo.boot (snd run)) = false /\
  existsb exec_failed (issued Demo.boot (snd run)) = false.
Proof. vm_compute. repeat split. Qed.

(** C2.  Every capture that returns normally, full-screen or
    application-targeted, returns a result whose file is on disk with as many
    bytes as the returned buffer, whose base64 string encodes that buffer, and
    whose write was the last call made before returning. *)
Theorem capture_result_is_persisted w options name format st r st' :
  captureScreen w options st = (Normal r, st') \/
  captureApplicationScreen w name format st = (Normal r, st') ->
  persisted r st'.
Proof.
  intros [H | H].
  - unfold captureScreen in H.
    destruct (truthy_string (opt_applicationName options)).
    + by eapply captureApplicationScreen_persisted.
    + by eapply captureDisplay_persisted.
  - by eapply captureApplicationScreen_persisted.
Qed.

(** On the demo desktop, a default capture is persisted. *)
Lemma capture_result_is_persisted_witness :
  persisted Demo.display_shot
    (snd (captureScreen (Demo.world Demo.one_window) Demo.no_options Demo.boot)).
Proof.
  apply (capture_result_is_persisted (Demo.world Demo.one_window) Demo.no_options
           EmptyString Png Demo.boot).
  left. vm_compute. reflexivity.
Defined.

(** C3.  When [applicationName] is present and not the empty
    string, [captureScreen] is the application-targeted capture, and the
    display index has no influence on what happens: it is neither used nor
    checked.  (The source tests the name for truthiness, so an empty name
    counts as absent.) *)
Theorem application_name_takes_precedence w name display display' format st :
  name <> EmptyString ->
  captureScreen w {| opt_display := display; opt_format := format;
                     opt_applicationName := Some name |} st
  = captureApplicationScreen w name (default Png format) st /\
  captureScreen w {| opt_display := display; opt_format := format;
                     opt_applicationName := Some name |} st
  = captureScreen w {| opt_display := display'; opt_format := format;
                       opt_applicationName := Some name |} st.
Proof.
  intros Hname. unfold captureScreen. cbn [opt_applicationName opt_format opt_display].
  destruct name as [|c name']; [congruence |]. split; reflexivity.
Qed.

(** With the name Finder, display 7 and no display give the same run. *)
Lemma application_name_takes_precedence_witness :
  captureScreen (Demo.world Demo.one_window)
    {| opt_display := Some 7%Z; opt_format := Some Jpg;
       opt_applicationName := Some "Finder" |} Demo.boot
  = captureApplicationScreen (Demo.world Demo.one_window) "Finder" Jpg Demo.boot /\
  captureScreen (Demo.world Demo.one_window)
    {| opt_display := Some 7%Z; opt_format := Some Jpg;
       opt_applicationName := Some "Finder" |} Demo.boot
  = captureScreen (Demo.world Demo.one_window)
    {| opt_display := None; opt_format := Some Jpg;
       opt_applicationName := Some "Finder" |} Demo.boot.
Proof.
  apply (application_name_takes_precedence (Demo.world Demo.one_window) "Finder"
           (Some 7%Z) None (Some Jpg) Demo.boot).
  discriminate.
Defined.

(** With the empty string as application name the display index decides:
    displays 1 and 0 give different files, and neither is the
    application-targeted capture. *)
Lemma empty_application_name_uses_display :
  let capture display :=
    fst (captureScreen (Demo.world Demo.one_window)
           {| opt_display := Some display; opt_format := None;
              opt_applicationName := Some EmptyString |} Demo.boot) in
  result_path (capture 1%Z) =
    Some "/Users/ada/Desktop/mcp-screenshots/screenshot-display-1-2025-07-04T10-20-30-456Z.png" /\
  result_path (capture 0%Z) =
    Some "/Users/ada/Desktop/mcp-screenshots/screenshot-display-0-2025-07-04T10-20-30-456Z.png" /\
  result_path (fst (captureApplicationScreen (Demo.world Demo.one_window)
                      EmptyString Png Demo.boot)) =
    Some "/Users/ada/Desktop/mcp-screenshots/-2025-07-04T10-20-30-456Z.png" /\
  capture 1%Z <> capture 0%Z /\
  capture 1%Z <> fst (captureApplicationScreen (Demo.world Demo.one_window)
                        EmptyString Png Demo.boot).
Proof.
  vm_compute. repeat split; discriminate.
Qed.

Lemma captureScreen_throws_honestly w options : honest (captureScreen w options).
Proof.
  unfold captureScreen, captureApplicationScreen, captureDisplay,
    createScreenshotsFolder, timestamp_now, screenshot, sharp_encode, fs_mkdir,
    fs_readFile.
  honestly.
Qed.

(** [captureScreenAndExtractText] is the png capture followed by the
    recognition of the captured buffer. *)
Lemma captureScreenAndExtractText_run w options st :
  captureScreenAndExtractText w options st =
  match captureScreen w (options_of options) st with
  | (Normal shot, st1) =>
      match extractTextFromImage w (inl (buffer shot))
              (default "eng" (cto_language options)) st1 with
      | (Normal t, st') => (Normal {| text := t; screenshot_of := shot |}, st')
      | (Throw e, st') => (Throw e, st')
      end
  | (Throw e, st1) => (Throw e, st1)
  end.
Proof.
  unfold captureScreenAndExtractText, bind, options_of.
  destruct (captureScreen w _ st) as [[shot|e] st1]; [ | reflexivity ].
  destruct (extractTextFromImage w _ _ st1) as [[t|e] st']; reflexivity.
Qed.

Lemma recognition_reads_what_it_is_given w data language st :
  Forall (ocr_reads data)
    (issued st (snd (extractTextFromImage w (inl data) language st))).
Proof.
  unfold extractTextFromImage. expose.
  repeat (next_answer_goal; cbn [fst snd files trace is_normal]).
  all: unfold issued; cbn [trace]; rewrite <- ?app_assoc, drop_app_length; cbn [app].
  all: repeat constructor.
Qed.

(** C4.  [captureScreenAndExtractText], and the tool built on it whatever
    arguments the caller sends, asks only for the lossless format: every
    capture and every encoding call of the run is for png.  The run is the
    capture of [captureScreen] with format png followed by the recognition of
    the captured buffer.  When the capture throws, a collaborator call had
    failed and the error is passed on.  When the capture returns, whether
    recognition then succeeds or throws, the returned buffer is the answer of
    a png encoding, its base64 string encodes it, the file at the returned
    path still holds that buffer at the end of the run, and that buffer is
    what recognition is given and the only thing it preprocesses; the
    function then throws only after a call of the recognition failed, and
    otherwise returns that screenshot with the trimmed text recognized from
    it. *)
Theorem capture_and_recognize_is_lossless w options args st :
  let run := captureScreenAndExtractText w options st in
  let language := default "eng" (cto_language options) in
  extends_by lossless_only st (snd (tool_capture_screen_and_extract_text w args st)) /\
  extends_by lossless_only st (snd run) /\
  match captureScreen w (options_of options) st with
  | (Throw e, st1) =>
      run = (Throw e, st1) /\
      existsb failed (issued st st1) = true
  | (Normal shot, st1) =>
      (exists raw,
         In (EvSharpEncode Png raw (Normal (buffer shot))) (issued st st1)) /\
      base64 shot = Base64.encode (buffer shot) /\
      files (snd run) !! path shot = Some (buffer shot) /\
      run = match extractTextFromImage w (inl (buffer shot)) language st1 with
            | (Normal t, st') =>
                (Normal {| text := t; screenshot_of := shot |}, st')
            | (Throw e, st') => (Throw e, st')
            end /\
      Forall (ocr_reads (buffer shot)) (issued st1 (snd run)) /\
      match fst run with
      | Normal r =>
          screenshot_of r = shot /\
          (exists raw,
             In (EvSharpEncode Png raw (Normal (buffer shot)))
                (issued st (snd run))) /\
          exists worker image t,
            In (EvSharpOcr (buffer shot) (Normal image)) (issued st (snd run)) /\
            In (EvRecognize worker image (Normal t)) (issued st (snd run)) /\
            text r = Js.trim t
      | Throw _ => existsb failed (issued st1 (snd run)) = true
      end
  end.
Proof.
  intros run language.
  split; [apply tool_capture_screen_and_extract_text_lossless |].
  split; [apply captureScreenAndExtractText_lossless |].
  subst run. rewrite captureScreenAndExtractText_run. fold language.
  pose proof (captureScreen_throws_honestly w (options_of options) st) as [_ Hcapture].
  destruct (captureScreen w (options_of options) st) as [[shot|e] st1] eqn:Hshot.
  2: { split; [reflexivity | by apply Hcapture]. }
  clear Hcapture.
  destruct (captureScreen_stored _ _ _ _ _ Hshot) as (Hcap & Hdisk & Hb64).
  pose proof (captureScreen_encoded _ _ _ _ _ Hshot) as [raw Hraw].
  pose proof (extractTextFromImage_files w (inl (buffer shot)) language st1) as Hfiles.
  pose proof (extractTextFromImage_honest w (inl (buffer shot)) language st1)
    as [Hext Hthrow].
  pose proof (recognition_reads_what_it_is_given w (buffer shot) language st1) as Hreads.
  unfold same_files in Hfiles.
  destruct (extractTextFromImage w (inl (buffer shot)) language st1)
    as [[t|e] st'] eqn:Hocr; cbn [fst snd] in *.
  - split; [by exists raw |]. split; [exact Hb64 |].
    split; [by rewrite Hfiles |]. split; [reflexivity |]. split; [exact Hreads |].
    split; [reflexivity |]. rewrite (issued_trans _ _ _ Hcap Hext).
    split; [exists raw; apply in_or_app; by left |].
    apply extractTextFromImage_success in Hocr
      as (worker & data & image & t0 & Hev & -> & ->).
    exists worker, image, t0. cbn [text]. rewrite Hev.
    repeat split; apply in_or_app; right; simpl; tauto.
  - split; [by exists raw |]. split; [exact Hb64 |].
    split; [by rewrite Hfiles |]. split; [reflexivity |]. split; [exact Hreads |].
    by apply Hthrow.
Qed.

(** On the demo desktop the combined operation returns: the screenshot of
    display 0 as png with the text read from it, after png calls only. *)
Lemma capture_and_recognize_is_lossless_witness :
  let run :=
    captureScreenAndExtractText (Demo.world Demo.one_window) Demo.no_text_options
      Demo.boot in
  fst run = Normal {| text := "HELLO WORLD"; screenshot_of := Demo.display_shot |} /\
  existsb is_screenshot (issued Demo.boot (snd run)) = true /\
  extends_by lossless_only Demo.boot (snd run).
Proof.
  cbv zeta. split; [vm_compute; reflexivity |]. split; [vm_compute; reflexivity |].
  apply (capture_and_recognize_is_lossless (Demo.world Demo.one_window)
           Demo.no_text_options None Demo.boot).
Defined.

(** C5.  In every call of [extractTextFromImage] that acquires an engine,
    the engine is released exactly once, by the last call made before the
    function returns, whether reading, preprocessing and recognition succeed
    or throw; when no engine could be acquired there is nothing to release
    and nothing else is called. *)
Theorem engine_released_exactly_once w input language st :
  let st' := snd (extractTextFromImage w input language st) in
  match worker_out w st language with
  | Normal worker =>
      exists during r,
        issued st st' =
          EvCreateWorker language (Normal worker) :: during ++ [EvTerminate worker r] /\
        terminations during = 0 /\
        terminations (issued st st') = 1
  | Throw e => issued st st' = [EvCreateWorker language (Throw e)]
  end.
Proof.
  unfold extractTextFromImage. destruct input as [given|file].
  all: expose; unfold read_answer; cbn [files].
  all: destruct (worker_out w st language) as [worker|e] eqn:Hw;
    cbn [fst snd files trace is_normal].
  all: repeat (next_answer_goal; cbn [fst snd files trace is_normal]).
  all: unfold issued; cbn [trace]; rewrite <- ?app_assoc, drop_app_length; cbn [app].
  all: try reflexivity.
  all: first [ eexists [_], _; repeat split; reflexivity
             | eexists [_; _], _; repeat split; reflexivity
             | eexists [_; _; _], _; repeat split; reflexivity ].
Qed.


(** C7.  [getRunningApplications] returns one descriptor per entry
    of the trimmed output of the query split at comma-space, in that order,
    each with its position as [pid]; a name reported twice is listed twice, so
    the length is the number of distinct names only when no name repeats. *)
Theorem listed_applications_follow_the_report w st apps st' :
  getRunningApplications w st = (Normal apps, st') ->
  exists stdout,
    issued st st' = [EvExec (osascript list_script) (Normal stdout)] /\
    let reported := map Js.trim (Js.split ", " (Js.trim stdout)) in
    map name apps = reported /\
    length apps = length reported /\
    (forall i app, apps !! i = Some app -> pid app = i) /\
    (NoDup reported -> length apps = length (remove_dups reported)).
Proof.
  intros H. unfold getRunningApplications in H.
  apply try_catch_rethrow_normal in H.
  apply bind_normal in H as (stdout & st1 & Hexec & Hret).
  inversion Hret; subst; clear Hret.
  unfold execAsync in Hexec. inversion Hexec as [[Hout Hst]]; subst; clear Hexec.
  exists stdout. unfold issued. cbn [trace]. rewrite drop_app_length, Hout.
  split; [reflexivity |]. cbn zeta. unfold Js.mapi.
  rewrite mapi_from_names, mapi_from_length.
  repeat split.
  - intros i app Hi. apply mapi_from_lookup in Hi as (x & _ & ->). reflexivity.
  - intros Hnd. by rewrite remove_dups_NoDup.
Qed.

(** The demo desktop reports Finder and Safari. *)
Lemma listed_applications_follow_the_report_witness :
  exists stdout,
    issued Demo.boot
      (snd (getRunningApplications (Demo.world Demo.one_window) Demo.boot)) =
      [EvExec (osascript list_script) (Normal stdout)] /\
    let reported := map Js.trim (Js.split ", " (Js.trim stdout)) in
    map name [ {| name := "Finder"; pid := 0 |}; {| name := "Safari"; pid := 1 |} ]
      = reported /\
    length [ {| name := "Finder"; pid := 0 |}; {| name := "Safari"; pid := 1 |} ]
      = length reported /\
    (forall i app,
        [ {| name := "Finder"; pid := 0 |}; {| name := "Safari"; pid := 1 |} ] !! i
          = Some app -> pid app = i) /\
    (NoDup reported ->
     length [ {| name := "Finder"; pid := 0 |}; {| name := "Safari"; pid := 1 |} ]
       = length (remove_dups reported)).
Proof.
  apply (listed_applications_follow_the_report (Demo.world Demo.one_window) Demo.boot).
  vm_compute. reflexivity.
Defined.

(** Two processes named Finder: two descriptors, one distinct name. *)
Lemma same_name_listed_twice :
  fst (getRunningApplications (Demo.world Demo.twice_running) Demo.boot) =
    Normal [ {| name := "Finder"; pid := 0 |}; {| name := "Finder"; pid := 1 |} ] /\
  length [ {| name := "Finder"; pid := 0 |}; {| name := "Finder"; pid := 1 |} ] = 2 /\
  length (remove_dups ["Finder"; "Finder"]) = 1.
Proof. vm_compute. repeat split. Qed.

(** C8.  A [capture_application_screen] call without [applicationName] and
    an [extract_text] call without [imagePath] are answered at once with the
    error response naming the missing parameter: the disk is untouched and
    the only call made is the diagnostic log line, so no directory creation,
    capture, file read or engine acquisition is attempted. *)
Theorem missing_parameter_fails_before_any_io w request st :
  (tool_name request = "capture_application_screen" /\
   arg (tool_arguments request) arg_applicationName = None) \/
  (tool_name request = "extract_text" /\
   arg (tool_arguments request) arg_imagePath = None) ->
  exists reason,
    (reason = "applicationName is required" \/ reason = "imagePath is required") /\
    callTool w request st =
      (Normal {| content := [TextContent (error_text (tool_name request) reason)];
                 isError := Some true |},
       {| files := files st;
          trace := trace st ++ [EvLog (error_text (tool_name request) reason)] |}) /\
    existsb is_io (issued st (snd (callTool w request st))) = false.
Proof.
  intros [[Hname Harg] | [Hname Harg]].
  - exists "applicationName is required". split; [by left |].
    assert (Hrun : callTool w request st =
      (Normal {| content := [TextContent (error_text (tool_name request)
                                            "applicationName is required")];
                 isError := Some true |},
       {| files := files st;
          trace := trace st ++ [EvLog (error_text (tool_name request)
                                         "applicationName is required")] |})).
    { unfold callTool, dispatch, tool_capture_application_screen.
      rewrite Hname, Harg. reflexivity. }
    split; [exact Hrun |]. rewrite Hrun. unfold issued. cbn [snd trace].
    by rewrite drop_app_length.
  - exists "imagePath is required". split; [by right |].
    assert (Hrun : callTool w request st =
      (Normal {| content := [TextContent (error_text (tool_name request)
                                            "imagePath is required")];
                 isError := Some true |},
       {| files := files st;
          trace := trace st ++ [EvLog (error_text (tool_name request)
                                         "imagePath is required")] |})).
    { unfold callTool, dispatch, tool_extract_text.
      rewrite Hname, Harg. reflexivity. }
    split; [exact Hrun |]. rewrite Hrun. unfold issued. cbn [snd trace].
    by rewrite drop_app_length.
Qed.

(** An [extract_text] call with no arguments at all. *)
Lemma missing_parameter_fails_before_any_io_witness :
  exists reason,
    (reason = "applicationName is required" \/ reason = "imagePath is required") /\
    callTool (Demo.world Demo.one_window) (Demo.bare_request "extract_text") Demo.boot =
      (Normal {| content := [TextContent (error_text "extract_text" reason)];
                 isError := Some true |},
       {| files := files Demo.boot;
          trace := trace Demo.boot ++ [EvLog (error_text "extract_text" reason)] |}) /\
    existsb is_io
      (issued Demo.boot
         (snd (callTool (Demo.world Demo.one_window) (Demo.bare_request "extract_text")
                 Demo.boot))) = false.
Proof.
  apply (missing_parameter_fails_before_any_io (Demo.world Demo.one_window)
           (Demo.bare_request "extract_text") Demo.boot).
  right. split; reflexivity.
Defined.

(** C9.  The handler always returns a response and never throws.  When
    the tool fails, the response is marked as an error and carries exactly one
    text item, which contains both the tool name and the message of the
    failure. *)
Theorem tool_failure_becomes_error_response w request st :
  exists response st',
    callTool w request st = (Normal response, st') /\
    forall error st1,
      dispatch w (tool_name request) (tool_arguments request) st = (Throw error, st1) ->
      exists line,
        response = {| content := [TextContent line]; isError := Some true |} /\
        line = error_text (tool_name request) (message error) /\
        Js.contains line (tool_name request) /\
        Js.contains line (message error) /\
        st' = emit (EvLog line) st1.
Proof.
  unfold callTool, try_catch.
  destruct (dispatch w (tool_name request) (tool_arguments request) st)
    as [[response|error] st1] eqn:Hrun.
  - exists response, st1. split; [reflexivity | intros ? ? [=]].
  - eexists _, _. split; [reflexivity |].
    intros error' st1' [= <- <-]. eexists. repeat split.
    + unfold error_text. apply contains_app_r, contains_app_l.
    + unfold error_text. do 3 apply contains_app_r. apply contains_self.
Qed.

(** C10.  When an application-targeted capture returns after one
    of its commands was rejected, the run ends with the full-screen capture of
    display 0, and the returned path is the screenshots folder joined with
    [screenshot-display-0-<timestamp>.<ext>], the timestamp being the clock
    reading taken just before the file was written; the application name
    plays no part in it. *)
Theorem fallback_path_names_display_0 w name format st r st' :
  captureApplicationScreen w name format st = (Normal r, st') ->
  existsb exec_failed (issued st st') = true ->
  exists before raw iso,
    issued st st' = before ++
      [ EvScreenshot 0 format (Normal raw);
        EvSharpEncode format raw (Normal (buffer r));
        EvMkdir (screenshotsFolder w) (Normal tt);
        EvNow iso;
        EvWriteFile (path r) (buffer r) (Normal tt) ] /\
    path r = path_join w (screenshotsFolder w)
               ("screenshot-display-0-" +:+ Js.replace_colon_dot iso +:+ "."
                +:+ format_str format).
Proof.
  intros Hrun Hfail.
  apply captureApplicationScreen_success in Hrun
    as [(iso & o1 & o2 & raw & Ht & _) | (pre & raw & iso & Ht & _ & Hp & _)].
  - rewrite (issued_app _ _ _ Ht) in Hfail. discriminate.
  - exists pre, raw, iso. split; [by apply issued_app | exact Hp].
Qed.

(** Finder cannot be activated: the fallback names the file after display 0. *)
Lemma fallback_path_names_display_0_witness :
  exists before raw iso,
    issued Demo.boot
      (snd (captureApplicationScreen (Demo.world Demo.not_running) "Finder" Png Demo.boot))
    = before ++
      [ EvScreenshot 0 Png (Normal raw);
        EvSharpEncode Png raw (Normal (buffer Demo.display_shot));
        EvMkdir (screenshotsFolder (Demo.world Demo.not_running)) (Normal tt);
        EvNow iso;
        EvWriteFile (path Demo.display_shot) (buffer Demo.display_shot) (Normal tt) ] /\
    path Demo.display_shot =
      path_join (Demo.world Demo.not_running)
        (screenshotsFolder (Demo.world Demo.not_running))
        ("screenshot-display-0-" +:+ Js.replace_colon_dot iso +:+ "." +:+ format_str Png).
Proof.
  apply (fallback_path_names_display_0 (Demo.world Demo.not_running) "Finder" Png
           Demo.boot).
  - vm_compute. reflexivity.
  - vm_compute. reflexivity.
Defined.

(** The application addressed as [screenshot] cannot be activated; the
    path of the fallback contains that name all the same. *)
Lemma fallback_path_can_contain_the_name :
  let run :=
    captureApplicationScreen (Demo.world Demo.not_running) "screenshot" Png Demo.boot in
  existsb exec_failed (issued Demo.boot (snd run)) = true /\
  result_path (fst run) =
    Some "/Users/ada/Desktop/mcp-screenshots/screenshot-display-0-2025-07-04T10-20-30-456Z.png" /\
  Js.contains
    "/Users/ada/Desktop/mcp-screenshots/screenshot-display-0-2025-07-04T10-20-30-456Z.png"
    "screenshot".
Proof.
  cbv zeta. split; [vm_compute; reflexivity |]. split; [vm_compute; reflexivity |].
  exists "/Users/ada/Desktop/mcp-", "s/screenshot-display-0-2025-07-04T10-20-30-456Z.png".
  reflexivity.
Qed.

(** * Further properties of the code *)

(** ** Lemmas they share *)

Ltac read_issued :=
  unfold issued; cbn [trace]; rewrite <- ?app_assoc, ?drop_app_length; cbn [app].

Lemma Forall_existsb_false {A} (p : A -> bool) l :
  Forall (fun x => p x = false) l -> existsb p l = false.
Proof.
  induction 1 as [|x l Hx _ IH]; [reflexivity |]. cbn [existsb]. by rewrite Hx, IH.
Qed.

Lemma captureApplicationScreen_stored w name format st r st' :
  captureApplicationScreen w name format st = (Normal r, st') ->
  files st' !! path r = Some (buffer r) /\ base64 r = Base64.encode (buffer r).
Proof.
  intros H. apply captureApplicationScreen_success in H
    as [(? & ? & ? & ? & _ & _ & Hb & Hf) | (? & ? & ? & _ & _ & _ & Hb & Hf)]; done.
Qed.

Lemma captureScreenAndExtractText_stored w options st r st' :
  captureScreenAndExtractText w options st = (Normal r, st') ->
  files st' !! path (screenshot_of r) = Some (buffer (screenshot_of r)) /\
  base64 (screenshot_of r) = Base64.encode (buffer (screenshot_of r)).
Proof.
  intros H. unfold captureScreenAndExtractText in H.
  apply bind_normal in H as (shot & st1 & Hshot & H).
  apply bind_normal in H as (t & st2 & Hocr & Hret).
  inversion Hret; subst; clear Hret. cbn [screenshot_of].
  apply captureScreen_stored in Hshot as (_ & Hf & Hb). split; [ | exact Hb].
  pose proof (extractTextFromImage_files w (inl (buffer shot))
                (default "eng" (cto_language options)) st1) as Hfiles.
  rewrite Hocr in Hfiles. cbn [snd] in Hfiles. unfold same_files in Hfiles.
  by rewrite Hfiles.
Qed.

Lemma getRunningApplications_normal w st apps st' :
  getRunningApplications w st = (Normal apps, st') ->
  exists stdout,
    exec_out w st (osascript list_script) = Normal stdout /\
    apps = Js.mapi (fun name index => {| name := name; pid := index |})
             (map Js.trim (Js.split ", " (Js.trim stdout))).
Proof.
  intros H. unfold getRunningApplications in H.
  apply try_catch_rethrow_normal in H.
  apply bind_normal in H as (stdout & st1 & Hexec & Hret).
  inversion Hret; subst; clear Hret.
  unfold execAsync in Hexec. inversion Hexec as [[Hout Hst]].
  by exists stdout.
Qed.

Lemma trimStart_fixed s :
  (forall c, Js.first_char s = Some c -> Js.is_space c = false) ->
  Js.trimStart s = s.
Proof.
  destruct s as [|a s]; simpl; [done |].
  intros H. by rewrite (H a eq_refl).
Qed.

Lemma trimEnd_fixed s :
  (forall c, Js.last_char s = Some c -> Js.is_space c = false) ->
  Js.trimEnd s = s.
Proof.
  induction s as [|a s IH]; simpl; [done |].
  intros H. destruct s as [|b s].
  - simpl. by rewrite (H a eq_refl).
  - rewrite IH; [done |]. intros c Hc. apply H. exact Hc.
Qed.

Lemma replace_colon_dot_clean s :
  string_forallb (fun c => negb (colon_or_dot c)) (Js.replace_colon_dot s) = true.
Proof.
  induction s as [|c s IH]; [reflexivity |].
  cbn [Js.replace_colon_dot string_forallb]. fold (colon_or_dot c).
  rewrite IH, andb_true_r. by destruct (colon_or_dot c) eqn:Hc; [ | rewrite Hc ].
Qed.

Lemma replace_colon_dot_length s :
  String.length (Js.replace_colon_dot s) = String.length s.
Proof. induction s as [|c s IH]; [reflexivity |]. simpl. by rewrite IH. Qed.

Lemma replace_colon_dot_again s :
  Js.replace_colon_dot (Js.replace_colon_dot s) = Js.replace_colon_dot s.
Proof.
  induction s as [|c s IH]; [reflexivity |].
  cbn [Js.replace_colon_dot]. fold (colon_or_dot c). rewrite IH.
  destruct (colon_or_dot c) eqn:Hc; [reflexivity |].
  fold (colon_or_dot c). by rewrite Hc.
Qed.

Lemma split_go_not_empty sep skip cur s : Js.split_go sep skip cur s <> [].
Proof.
  revert skip cur. induction s as [|c s IH]; intros skip cur; [discriminate |].
  cbn [Js.split_go]. destruct skip; [ | apply IH ].
  destruct (String.prefix sep (String c s)); [discriminate | apply IH].
Qed.

Lemma string_rev_to_app acc tl rest :
  Js.string_rev_to acc tl +:+ rest = Js.string_rev_to acc (tl +:+ rest).
Proof. revert tl. induction acc as [|c acc IH]; intros tl; simpl; [done | apply IH]. Qed.

Lemma prefix_split sep s :
  String.prefix sep s = true -> exists rest, s = sep +:+ rest.
Proof.
  revert s. induction sep as [|a sep IH]; intros s H.
  - by exists s.
  - destruct s as [|b s]; simpl in H; [discriminate |].
    destruct (ascii_dec a b) as [-> | Hne]; [ | discriminate ].
    apply IH in H as [rest ->]. by exists rest.
Qed.

Lemma join_cons sep x l :
  l <> [] -> Js.join sep (x :: l) = x +:+ sep +:+ Js.join sep l.
Proof. destruct l; [done | reflexivity]. Qed.

(** Passing over the rest of a separator occurrence. *)
Lemma split_go_skip sep tl cur rest :
  Js.split_go sep (String.length tl) cur (tl +:+ rest) = Js.split_go sep 0 cur rest.
Proof.
  induction tl as [|c tl IH]; [reflexivity |].
  change (Js.split_go sep (String.length tl) cur (tl +:+ rest) = Js.split_go sep 0 cur rest).
  exact IH.
Qed.

Lemma join_split_go sep a n :
  forall s cur, String.length s <= n ->
    Js.join (String a sep) (Js.split_go (String a sep) 0 cur s)
    = Js.string_rev_to cur s.
Proof.
  induction n as [|n IH]; intros s cur Hn.
  - destruct s; [reflexivity | simpl in Hn; lia].
  - destruct s as [|c s]; [reflexivity |].
    cbn [Js.split_go].
    destruct (String.prefix (String a sep) (String c s)) eqn:Hp.
    + apply prefix_split in Hp as [rest Hrest].
      change (String a sep +:+ rest) with (String a (sep +:+ rest)) in Hrest.
      injection Hrest as -> ->.
      rewrite join_cons by apply split_go_not_empty.
      change (String.length (String a sep) - 1) with (String.length sep - 0).
      rewrite Nat.sub_0_r, split_go_skip.
      rewrite (IH rest []).
      * cbn [Js.string_rev_to]. rewrite string_rev_to_app. reflexivity.
      * simpl in Hn. 
        assert (String.length (sep +:+ rest) = String.length sep + String.length rest).
        { clear. induction sep as [|x sep IHs]; [reflexivity |].
          change (S (String.length (sep +:+ rest)) = S (String.length sep + String.length rest)).
          by rewrite IHs. }
        lia.
    + rewrite (IH s (c :: cur)); [reflexivity | simpl in Hn; lia].
Qed.

(** ** The properties *)

(** X1.  In a full-screen capture that throws, the message starts with the
    prefix of [captureScreen], no write went through, and some collaborator
    call had failed. *)
Theorem failed_display_capture_writes_nothing w display format st :
  match captureDisplay w display format st with
  | (Normal _, _) => True
  | (Throw e, st') =>
      (exists reason, message e = "Failed to capture screen: " +:+ reason) /\
      existsb wrote (issued st st') = false /\
      existsb failed (issued st st') = true
  end.
Proof.
  unfold captureDisplay. expose.
  repeat (next_answer_goal; cbn [fst snd files trace is_normal]).
  all: try exact I.
  all: read_issued; cbn [message existsb wrote failed is_normal negb orb].
  all: repeat split; eauto.
Qed.

(** X2.  A full-screen capture asks for the screenshots folder only after
    the screen was captured and encoded: when the folder is asked for, the
    run began with a successful screenshot and a successful encoding. *)
Theorem display_capture_captures_before_storing w display format st :
  let st' := snd (captureDisplay w display format st) in
  existsb is_mkdir (issued st st') = true ->
  exists raw data made rest,
    issued st st' =
      EvScreenshot display format (Normal raw)
      :: EvSharpEncode format raw (Normal data)
      :: EvMkdir (screenshotsFolder w) made
      :: rest.
Proof.
  unfold captureDisplay. expose.
  destruct (screenshot_out w st display format) as [raw|e] eqn:Hs;
    cbn [fst snd files trace is_normal].
  2: { read_issued. discriminate. }
  destruct (sharp_encode_out w _ format raw) as [data|e] eqn:He;
    cbn [fst snd files trace is_normal].
  2: { read_issued. discriminate. }
  intros _. exists raw, data.
  repeat (next_answer_goal; cbn [fst snd files trace is_normal]).
  all: read_issued; eexists _, _; reflexivity.
Qed.

Lemma display_capture_captures_before_storing_witness :
  exists raw data made rest,
    issued Demo.boot
      (snd (captureDisplay (Demo.world Demo.one_window) 2 Jpg Demo.boot)) =
      EvScreenshot 2 Jpg (Normal raw)
      :: EvSharpEncode Jpg raw (Normal data)
      :: EvMkdir (screenshotsFolder (Demo.world Demo.one_window)) made
      :: rest.
Proof.
  apply (display_capture_captures_before_storing (Demo.world Demo.one_window) 2 Jpg
           Demo.boot).
  vm_compute. reflexivity.
Defined.

(** X3.  A successful full-screen capture changes no file but the one it
    returns. *)
Theorem display_capture_touches_one_file w display format st r st' other :
  captureDisplay w display format st = (Normal r, st') ->
  other <> path r ->
  files st' !! other = files st !! other.
Proof.
  intros H Hne. apply captureDisplay_success in H as (_ & _ & _ & _ & _ & ->).
  by apply lookup_insert_ne.
Qed.

Lemma display_capture_touches_one_file_witness :
  files (snd (captureDisplay (Demo.world Demo.one_window) 0 Png Demo.boot))
    !! "/Users/ada/notes.txt"
  = files Demo.boot !! "/Users/ada/notes.txt".
Proof.
  apply (display_capture_touches_one_file (Demo.world Demo.one_window) 0 Png Demo.boot
           Demo.display_shot).
  - vm_compute. reflexivity.
  - discriminate.
Defined.

(** X4.  The application capture makes the folder first: when that fails it
    throws the doubly prefixed message at once, having run no command and
    captured nothing. *)
Theorem application_capture_needs_the_folder w name format st e :
  mkdir_out w st (screenshotsFolder w) = Throw e ->
  captureApplicationScreen w name format st =
    (Throw (Err ("Failed to capture application screen: "
                 +:+ "Failed to create screenshots folder: " +:+ message e)),
     emit (EvMkdir (screenshotsFolder w) (Throw e)) st).
Proof.
  intros H. unfold captureApplicationScreen. expose. rewrite H. reflexivity.
Qed.

Lemma application_capture_needs_the_folder_witness :
  captureApplicationScreen (Demo.faulty_world Demo.one_window Demo.read_only_desktop)
    "Finder" Png Demo.boot =
    (Throw (Err ("Failed to capture application screen: "
                 +:+ "Failed to create screenshots folder: "
                 +:+ message (Err "EACCES: permission denied"))),
     emit (EvMkdir (screenshotsFolder
                      (Demo.faulty_world Demo.one_window Demo.read_only_desktop))
             (Throw (Err "EACCES: permission denied"))) Demo.boot).
Proof.
  apply (application_capture_needs_the_folder
           (Demo.faulty_world Demo.one_window Demo.read_only_desktop) "Finder" Png Demo.boot).
  reflexivity.
Defined.

(** X5.  An application capture that returns without a rejected command made
    exactly eight calls, with the 500 ms pause between the two commands; it
    read back the file the window capture wrote, re-encoded it and wrote it
    to the same application-named path. *)
Theorem window_capture_route w name format st r st' :
  captureApplicationScreen w name format st = (Normal r, st') ->
  existsb exec_failed (issued st st') = false ->
  exists iso out1 out2 raw,
    issued st st' =
      [ EvMkdir (screenshotsFolder w) (Normal tt);
        EvNow iso;
        EvExec (osascript (window_script name)) (Normal out1);
        EvSleep 500;
        EvExec (screencapture_window (path r)) (Normal out2);
        EvReadFile (path r) (Normal raw);
        EvSharpEncode format raw (Normal (buffer r));
        EvWriteFile (path r) (buffer r) (Normal tt) ] /\
    path r = path_join w (screenshotsFolder w)
               (name +:+ "-" +:+ Js.replace_colon_dot iso +:+ "." +:+ format_str format) /\
    files st' !! path r = Some (buffer r).
Proof.
  intros Hrun Hok.
  apply captureApplicationScreen_success in Hrun
    as [(iso & o1 & o2 & raw & Ht & Hp & _ & Hf) | (pre & raw & iso & Ht & Hpre & _)].
  - exists iso, o1, o2, raw. split; [by apply issued_app | done].
  - rewrite (issued_app _ _ _ Ht), existsb_app, Hpre in Hok. discriminate.
Qed.

Lemma window_capture_route_witness :
  exists iso out1 out2 raw,
    issued Demo.boot
      (snd (captureApplicationScreen (Demo.world Demo.one_window) "Finder" Png
              Demo.boot)) =
      [ EvMkdir (screenshotsFolder (Demo.world Demo.one_window)) (Normal tt);
        EvNow iso;
        EvExec (osascript (window_script "Finder")) (Normal out1);
        EvSleep 500;
        EvExec (screencapture_window (path Demo.window_shot)) (Normal out2);
        EvReadFile (path Demo.window_shot) (Normal raw);
        EvSharpEncode Png raw (Normal (buffer Demo.window_shot));
        EvWriteFile (path Demo.window_shot) (buffer Demo.window_shot) (Normal tt) ] /\
    path Demo.window_shot =
      path_join (Demo.world Demo.one_window)
        (screenshotsFolder (Demo.world Demo.one_window))
        ("Finder" +:+ "-" +:+ Js.replace_colon_dot iso +:+ "." +:+ format_str Png) /\
    files (snd (captureApplicationScreen (Demo.world Demo.one_window) "Finder" Png
                  Demo.boot))
      !! path Demo.window_shot = Some (buffer Demo.window_shot).
Proof.
  apply (window_capture_route (Demo.world Demo.one_window) "Finder" Png Demo.boot).
  - vm_compute. reflexivity.
  - vm_compute. reflexivity.
Defined.

(** X6.  In an application capture the screen is captured as a whole exactly
    when a command was rejected, and then it is display 0 in the requested
    format: failures after the window capture (reading, encoding, writing)
    are not recovered by the fallback. *)
Theorem full_screen_capture_iff_command_rejected w name format st :
  let st' := snd (captureApplicationScreen w name format st) in
  existsb is_screenshot (issued st st') = existsb exec_failed (issued st st') /\
  Forall (fun ev => match ev with
                    | EvScreenshot screen asked _ => screen = 0%Z /\ asked = format
                    | _ => True
                    end) (issued st st').
Proof.
  unfold captureApplicationScreen, captureDisplay. expose. unfold read_answer.
  cbn [files].
  repeat (next_answer_goal; cbn [fst snd files trace is_normal]).
  all: read_issued; cbn [existsb is_screenshot exec_failed orb].
  all: split; [reflexivity | repeat constructor].
Qed.

(** X7.  When a command of the application capture is rejected, the run
    is the full-screen capture of display 0 started right after the
    diagnostic line, with its error, if any, prefixed a second time. *)
Theorem rejected_command_runs_the_fallback w name format st :
  existsb exec_failed
    (issued st (snd (captureApplicationScreen w name format st))) = true ->
  exists appError st1,
    extends st st1 /\
    (exists before,
       trace st1 = before ++
         [EvLog ("App-specific capture failed, falling back to full screen: "
                 +:+ error_to_string appError)]) /\
    captureApplicationScreen w name format st
    = passed_on (captureDisplay w 0 format st1).
Proof. apply rejected_command_falls_back. Qed.

Lemma rejected_command_runs_the_fallback_witness :
  exists appError st1,
    extends Demo.boot st1 /\
    (exists before,
       trace st1 = before ++
         [EvLog ("App-specific capture failed, falling back to full screen: "
                 +:+ error_to_string appError)]) /\
    captureApplicationScreen (Demo.world Demo.not_running) "Finder" Jpg Demo.boot
    = passed_on (captureDisplay (Demo.world Demo.not_running) 0 Jpg st1).
Proof.
  apply (rejected_command_runs_the_fallback (Demo.world Demo.not_running) "Finder" Jpg
           Demo.boot).
  vm_compute. reflexivity.
Defined.


(** X9.  When releasing the engine fails, [extractTextFromImage] throws that
    error, whatever recognition had produced. *)
Theorem failed_release_discards_the_text w input language st worker e :
  let run := extractTextFromImage w input language st in
  last (issued st (snd run)) = Some (EvTerminate worker (Throw e)) ->
  fst run = Throw e.
Proof.
  unfold extractTextFromImage. destruct input as [given|file].
  all: expose; unfold read_answer; cbn [files].
  all: repeat (next_answer_goal; cbn [fst snd files trace is_normal]).
  all: read_issued; cbn [last].
  all: intros [=]; subst; try reflexivity.
Qed.

Lemma failed_release_discards_the_text_witness :
  fst (extractTextFromImage (Demo.faulty_world Demo.one_window Demo.stuck_engine)
         (inl Demo.pixels) "eng" Demo.boot)
  = Throw (Err "worker already terminated").
Proof.
  apply (failed_release_discards_the_text
           (Demo.faulty_world Demo.one_window Demo.stuck_engine)
           (inl Demo.pixels) "eng" Demo.boot 1).
  vm_compute. reflexivity.
Defined.

(** X10.  When the capture succeeds and recognition throws,
    [captureScreenAndExtractText] throws the same error unchanged and the
    captured file stays on disk. *)
Theorem failed_recognition_keeps_the_capture w options st shot st1 e st' :
  captureScreen w (options_of options) st = (Normal shot, st1) ->
  extractTextFromImage w (inl (buffer shot))
    (default "eng" (cto_language options)) st1 = (Throw e, st') ->
  captureScreenAndExtractText w options st = (Throw e, st') /\
  files st' !! path shot = Some (buffer shot).
Proof.
  intros Hshot Hocr. split.
  - unfold captureScreenAndExtractText, bind.
    change (captureScreen w _ st) with (captureScreen w (options_of options) st).
    rewrite Hshot, Hocr. reflexivity.
  - pose proof (extractTextFromImage_files w (inl (buffer shot))
                  (default "eng" (cto_language options)) st1) as Hfiles.
    rewrite Hocr in Hfiles. cbn [snd] in Hfiles. unfold same_files in Hfiles.
    rewrite Hfiles. by apply captureScreen_stored in Hshot as (_ & ? & _).
Qed.

Lemma failed_recognition_keeps_the_capture_witness :
  captureScreenAndExtractText (Demo.world Demo.unreadable_screen) Demo.no_text_options
    Demo.boot
  = (Throw (Err "Failed to extract text from image: recognition failed"),
     snd (captureScreenAndExtractText (Demo.world Demo.unreadable_screen)
            Demo.no_text_options Demo.boot)) /\
  files (snd (captureScreenAndExtractText (Demo.world Demo.unreadable_screen)
                Demo.no_text_options Demo.boot))
    !! path Demo.display_shot = Some (buffer Demo.display_shot).
Proof.
  apply (failed_recognition_keeps_the_capture (Demo.world Demo.unreadable_screen)
           Demo.no_text_options Demo.boot Demo.display_shot
           (snd (captureScreen (Demo.world Demo.unreadable_screen)
                   (options_of Demo.no_text_options) Demo.boot))).
  - vm_compute. reflexivity.
  - vm_compute. reflexivity.
Defined.

(** X11.  When the capture throws, [captureScreenAndExtractText] throws the
    same error and never touches the recognition engine. *)
Theorem failed_capture_skips_recognition w options st e st' :
  captureScreen w (options_of options) st = (Throw e, st') ->
  captureScreenAndExtractText w options st = (Throw e, st') /\
  existsb is_worker (issued st st') = false.
Proof.
  intros Hshot. split.
  - unfold captureScreenAndExtractText, bind.
    change (captureScreen w _ st) with (captureScreen w (options_of options) st).
    by rewrite Hshot.
  - assert (Hsteps : steps (extends_by (fun ev => is_worker ev = false))
                       (captureScreen w (options_of options))).
    { unfold captureScreen, captureApplicationScreen, captureDisplay,
        createScreenshotsFolder, timestamp_now, screenshot, sharp_encode,
        fs_mkdir, fs_readFile.
      walk. }
    destruct (Hsteps st) as (evs & Ht & Hall). rewrite Hshot in Ht. cbn [snd] in Ht.
    rewrite (issued_app _ _ _ Ht). clear Ht.
    induction Hall as [|ev evs Hev _ IH]; [reflexivity |].
    cbn [existsb]. by rewrite Hev, IH.
Qed.

Lemma failed_capture_skips_recognition_witness :
  captureScreenAndExtractText (Demo.faulty_world Demo.one_window Demo.dark_screen)
    Demo.no_text_options Demo.boot
  = (Throw (Err "Failed to capture screen: no display"),
     snd (captureScreen (Demo.faulty_world Demo.one_window Demo.dark_screen)
            (options_of Demo.no_text_options) Demo.boot)) /\
  existsb is_worker
    (issued Demo.boot
       (snd (captureScreen (Demo.faulty_world Demo.one_window Demo.dark_screen)
               (options_of Demo.no_text_options) Demo.boot))) = false.
Proof.
  apply (failed_capture_skips_recognition
           (Demo.faulty_world Demo.one_window Demo.dark_screen) Demo.no_text_options Demo.boot).
  vm_compute. reflexivity.
Defined.

(** X12.  [captureScreen], [captureApplicationScreen], [getRunningApplications]
    and [createScreenshotsFolder] only add to the trace, and throw only after
    a collaborator call failed. *)
Theorem captures_and_listing_are_honest w options name format :
  honest (captureScreen w options) /\
  honest (captureApplicationScreen w name format) /\
  honest (getRunningApplications w) /\
  honest (createScreenshotsFolder w).
Proof.
  split; [ | split; [ | split ] ].
  all: unfold captureScreen, captureApplicationScreen, captureDisplay,
    getRunningApplications, createScreenshotsFolder, timestamp_now, screenshot,
    sharp_encode, fs_mkdir, fs_readFile.
  all: honestly.
Qed.

(** X13.  A listing that returns is never empty, every name in it is trimmed,
    and its first descriptor has [pid] 0. *)
Theorem listing_is_trimmed_and_not_empty w st apps st' :
  getRunningApplications w st = (Normal apps, st') ->
  apps <> [] /\
  Forall (fun app => Js.trimmed (name app)) apps /\
  (forall app, head apps = Some app -> pid app = 0).
Proof.
  intros H. apply getRunningApplications_normal in H as (stdout & _ & ->).
  unfold Js.mapi, Js.split.
  pose proof (split_go_not_empty ", " 0 [] (Js.trim stdout)) as Hne.
  destruct (Js.split_go ", " 0 [] (Js.trim stdout)) as [|piece pieces]; [done |].
  split; [discriminate |]. split.
  - apply (Forall_map name). rewrite mapi_from_names.
    apply Forall_map, Forall_forall. intros x _. apply trim_trimmed.
  - simpl. by intros app [= <-].
Qed.

Lemma listing_is_trimmed_and_not_empty_witness :
  [ {| name := "Finder"; pid := 0 |}; {| name := "Safari"; pid := 1 |} ] <> [] /\
  Forall (fun app => Js.trimmed (name app))
    [ {| name := "Finder"; pid := 0 |}; {| name := "Safari"; pid := 1 |} ] /\
  (forall app,
      head [ {| name := "Finder"; pid := 0 |}; {| name := "Safari"; pid := 1 |} ]
      = Some app -> pid app = 0).
Proof.
  apply (listing_is_trimmed_and_not_empty (Demo.world Demo.one_window) Demo.boot
           [ {| name := "Finder"; pid := 0 |}; {| name := "Safari"; pid := 1 |} ]
           (snd (getRunningApplications (Demo.world Demo.one_window) Demo.boot))).
  vm_compute. reflexivity.
Defined.

(** X14.  When the listing script prints nothing but white space, the listing
    is one descriptor with the empty name. *)
Theorem blank_report_lists_one_nameless_application w st stdout :
  exec_out w st (osascript list_script) = Normal stdout ->
  Js.all_space stdout = true ->
  fst (getRunningApplications w st) = Normal [ {| name := EmptyString; pid := 0 |} ].
Proof.
  intros Hout Hblank. unfold getRunningApplications. expose.
  rewrite Hout. cbn [fst]. by rewrite (trim_all_space _ Hblank).
Qed.

Lemma blank_report_lists_one_nameless_application_witness :
  fst (getRunningApplications (Demo.world Demo.nothing_running) Demo.boot)
  = Normal [ {| name := EmptyString; pid := 0 |} ].
Proof.
  apply (blank_report_lists_one_nameless_application
           (Demo.world Demo.nothing_running) Demo.boot Js.newline);
    reflexivity.
Defined.

(** X15.  Joining the pieces of a split with the separator gives the string
    back, for every non-empty separator. *)
Theorem join_split sep s :
  sep <> EmptyString -> Js.join sep (Js.split sep s) = s.
Proof.
  intros Hsep. destruct sep as [|a sep]; [done |].
  unfold Js.split. by rewrite (join_split_go sep a (String.length s)).
Qed.

Lemma join_split_witness :
  Js.join ", " (Js.split ", " "Finder, Safari, , Notes") = "Finder, Safari, , Notes".
Proof. apply (join_split ", " "Finder, Safari, , Notes"). discriminate. Defined.

(** X16.  [trim] leaves a string unchanged exactly when it has no white space
    at either end; trimming twice is trimming once. *)
Theorem trim_fixes_exactly_the_trimmed s :
  (Js.trim s = s <-> Js.trimmed s) /\ Js.trim (Js.trim s) = Js.trim s.
Proof.
  assert (Hfix : forall t, Js.trimmed t -> Js.trim t = t).
  { intros t [Hfirst Hlast]. unfold Js.trim.
    rewrite (trimStart_fixed _ Hfirst). by apply trimEnd_fixed. }
  split; [split |].
  - intros <-. apply trim_trimmed.
  - apply Hfix.
  - apply Hfix, trim_trimmed.
Qed.

(** X17.  The time stamp put in file names has neither colon nor dot, is as
    long as the ISO string of the clock, and is left unchanged by a second
    replacement. *)
Theorem timestamp_has_no_colon_or_dot w st :
  let stamp := Js.replace_colon_dot (now_iso w st) in
  fst (timestamp_now w st) = Normal stamp /\
  string_forallb (fun c => negb (colon_or_dot c)) stamp = true /\
  String.length stamp = String.length (now_iso w st) /\
  Js.replace_colon_dot stamp = stamp.
Proof.
  cbv zeta. split; [reflexivity |]. split; [apply replace_colon_dot_clean |].
  split; [apply replace_colon_dot_length | apply replace_colon_dot_again].
Qed.

(** X18.  The base64 string of a buffer of n bytes has four characters for
    every started group of three bytes. *)
Theorem base64_length (b : bytes) :
  String.length (Base64.encode b) = 4 * ((length b + 2) / 3).
Proof.
  remember (length b) as n eqn:Hn. revert b Hn.
  induction n as [n IH] using lt_wf_ind. intros b Hn.
  destruct b as [|x [|y [|z rest]]]; subst n; try reflexivity.
  cbn [Base64.encode String.length length].
  rewrite (IH (length rest)); [ | simpl; lia | reflexivity ].
  replace (S (S (S (length rest))) + 2) with (length rest + 2 + 1 * 3) by lia.
  rewrite Nat.div_add by lia. lia.
Qed.

(** X19.  An empty string for [applicationName] or [imagePath] is refused like
    a missing one, before any other call. *)
Theorem empty_parameter_counts_as_missing w display format name file language st :
  callTool w
    (request "capture_application_screen"
       {| arg_display := display; arg_format := format;
          arg_applicationName := Some EmptyString;
          arg_imagePath := file; arg_language := language |}) st
  = refusal "capture_application_screen" "applicationName is required" st /\
  callTool w
    (request "extract_text"
       {| arg_display := display; arg_format := format;
          arg_applicationName := name;
          arg_imagePath := Some EmptyString; arg_language := language |}) st
  = refusal "extract_text" "imagePath is required" st.
Proof. split; reflexivity. Qed.

(** X20.  A call to a name that is not among the advertised tools is answered
    with the error response [Unknown tool], after no call but the diagnostic
    line. *)
Theorem unknown_tool_is_refused w request st :
  ~ In (tool_name request) Schema.tool_names ->
  callTool w request st
  = refusal (tool_name request) ("Unknown tool: " +:+ tool_name request) st.
Proof.
  intros Hnot. unfold callTool, dispatch.
  repeat match goal with
  | |- context [String.eqb (tool_name request) ?known] =>
      destruct (String.eqb_spec (tool_name request) known) as [Heq | _];
      [ exfalso; apply Hnot; rewrite Heq; simpl; tauto | ]
  end.
  reflexivity.
Qed.

Lemma unknown_tool_is_refused_witness :
  callTool (Demo.world Demo.one_window) (Demo.bare_request "capture_window") Demo.boot
  = refusal "capture_window" ("Unknown tool: " +:+ "capture_window") Demo.boot.
Proof.
  apply (unknown_tool_is_refused (Demo.world Demo.one_window)
           (Demo.bare_request "capture_window") Demo.boot).
  simpl. intros H. repeat destruct H as [H | H]; discriminate || exact H.
Defined.

(** X21.  For every advertised tool and every property its schema requires, a
    call without arguments is refused with the message naming that
    property. *)
Theorem required_properties_are_enforced :
  Forall (fun tool =>
            Forall (fun property =>
                      forall w st,
                        callTool w {| tool_name := Schema.name tool;
                                      tool_arguments := None |} st
                        = refusal (Schema.name tool) (property +:+ " is required") st)
                   (Schema.required tool))
         Schema.tools.
Proof. repeat constructor. Qed.

(** X22.  The [capture_screen] tool ignores [applicationName], [imagePath] and
    [language], and never runs a child process, reads a file or touches the
    recognition engine. *)
Theorem capture_screen_tool_stays_on_the_display
    w display format name name' file file' language language' st :
  let call name file language :=
    callTool w (request "capture_screen"
                  {| arg_display := display; arg_format := format;
                     arg_applicationName := name; arg_imagePath := file;
                     arg_language := language |}) st in
  call name file language = call name' file' language' /\
  existsb off_display (issued st (snd (call name file language))) = false.
Proof.
  cbv zeta. split; [reflexivity |].
  assert (Hsteps : steps (extends_by (fun ev => off_display ev = false))
            (callTool w (request "capture_screen"
                  {| arg_display := display; arg_format := format;
                     arg_applicationName := name; arg_imagePath := file;
                     arg_language := language |}))).
  { unfold callTool, dispatch, request. cbn [tool_name tool_arguments String.eqb].
    change (String.eqb "capture_screen" "capture_screen") with true. cbv iota.
    unfold tool_capture_screen, captureScreen, captureDisplay, createScreenshotsFolder,
      timestamp_now, screenshot, sharp_encode, fs_mkdir, arg.
    cbn [truthy_string opt_applicationName].
    walk. }
  destruct (Hsteps st) as (evs & Ht & Hall).
  rewrite (issued_app _ _ _ Ht). by apply Forall_existsb_false.
Qed.

(** X23.  In a successful response of one of the three capture tools, the image
    is the base64 of the bytes on disk at a path that the text names, and the
    MIME type is [image/] followed by the requested format (png for the
    combined tool). *)
Theorem image_response_shows_the_stored_file w request st response st' :
  callTool w request st = (Normal response, st') ->
  isError response = None ->
  image_tool (tool_name request) = true ->
  exists summary file data mime,
    content response = [TextContent summary; ImageContent (Base64.encode data) mime] /\
    Js.contains summary file /\
    files st' !! file = Some data /\
    mime = "image/" +:+
           (if String.eqb (tool_name request) "capture_screen_and_extract_text"
            then "png"
            else format_str (default Png (arg (tool_arguments request) arg_format))).
Proof.
  intros Hrun Hok Htool. unfold callTool in Hrun.
  apply try_catch_normal in Hrun as [Hrun | (e & st1 & _ & Hrun)].
  2: { apply bind_normal in Hrun as (? & ? & _ & Hret).
       inversion Hret; subst. discriminate. }
  unfold dispatch, image_tool in *.
  destruct (String.eqb_spec (tool_name request) "capture_screen") as [Hn | _].
  { rewrite Hn. unfold tool_capture_screen in Hrun.
    apply bind_normal in Hrun as (? & st1 & Hlog & Hrun).
    apply bind_normal in Hrun as (r & st2 & Hcap & Hret).
    inversion Hret; subst; clear Hret. cbn [content].
    apply captureScreen_stored in Hcap as (_ & Hf & ->).
    eexists _, (path r), (buffer r), _.
    split; [reflexivity |]. split; [ | split; [exact Hf | reflexivity]].
    do 3 apply contains_app_r. apply contains_app_l. }
  destruct (String.eqb_spec (tool_name request) "capture_application_screen")
    as [Hn | _].
  { rewrite Hn. unfold tool_capture_application_screen in Hrun.
    destruct (truthy_string _) as [app|]; [ | discriminate ].
    apply bind_normal in Hrun as (? & st1 & Hlog & Hrun).
    apply bind_normal in Hrun as (r & st2 & Hcap & Hret).
    inversion Hret; subst; clear Hret. cbn [content].
    apply captureApplicationScreen_stored in Hcap as (Hf & ->).
    eexists _, (path r), (buffer r), _.
    split; [reflexivity |]. split; [ | split; [exact Hf | reflexivity]].
    do 6 apply contains_app_r. apply contains_app_l. }
  destruct (String.eqb_spec (tool_name request) "list_applications") as [Hn | _].
  { rewrite Hn in Htool. discriminate. }
  destruct (String.eqb_spec (tool_name request) "extract_text") as [Hn | _].
  { rewrite Hn in Htool. discriminate. }
  destruct (String.eqb_spec (tool_name request) "capture_screen_and_extract_text")
    as [Hn | _]; [ | discriminate ].
  unfold tool_capture_screen_and_extract_text in Hrun.
  apply bind_normal in Hrun as (? & st1 & Hlog & Hrun).
  apply bind_normal in Hrun as (r & st2 & Hcap & Hret).
  inversion Hret; subst; clear Hret. cbn [content].
  apply captureScreenAndExtractText_stored in Hcap as (Hf & ->).
  eexists _, (path (screenshot_of r)), (buffer (screenshot_of r)), _.
  split; [reflexivity |]. split; [ | split; [exact Hf | reflexivity]].
  do 3 apply contains_app_r. apply contains_app_l.
Qed.

Lemma image_response_shows_the_stored_file_witness :
  let run := callTool (Demo.world Demo.one_window)
               (Demo.bare_request "capture_screen") Demo.boot in
  exists summary file data mime,
    content (reply_of run)
    = [TextContent summary; ImageContent (Base64.encode data) mime] /\
    Js.contains summary file /\
    files (snd run) !! file = Some data /\
    mime = "image/" +:+
           (if String.eqb (tool_name (Demo.bare_request "capture_screen"))
                 "capture_screen_and_extract_text"
            then "png"
            else format_str (default Png
                   (arg (tool_arguments (Demo.bare_request "capture_screen"))
                      arg_format))).
Proof.
  apply (image_response_shows_the_stored_file (Demo.world Demo.one_window)
           (Demo.bare_request "capture_screen") Demo.boot).
  - vm_compute. reflexivity.
  - vm_compute. reflexivity.
  - reflexivity.
Defined.

(** X24.  Every response of the handler starts with a text item, followed by at
    most one image; an error response is a lone text item. *)
Theorem every_response_starts_with_text w request st :
  exists response st',
    callTool w request st = (Normal response, st') /\ well_shaped response.
Proof.
  unfold callTool, try_catch.
  destruct (dispatch w (tool_name request) (tool_arguments request) st)
    as [[response|e] st1] eqn:Hrun.
  2: { eexists _, _. split; [reflexivity |].
       eexists _, []. cbn [content isError error_result]. eauto 6. }
  exists response, st1. split; [reflexivity |]. unfold dispatch in Hrun.
  repeat match type of Hrun with
  | (if ?b then _ else _) _ = _ => destruct b
  end.
  - unfold tool_capture_screen in Hrun.
    apply bind_normal in Hrun as (? & ? & _ & Hrun).
    apply bind_normal in Hrun as (? & ? & _ & Hret).
    inversion Hret; subst. eexists _, _. cbn [content isError]. eauto 8.
  - unfold tool_capture_application_screen in Hrun.
    destruct (truthy_string _); [ | discriminate ].
    apply bind_normal in Hrun as (? & ? & _ & Hrun).
    apply bind_normal in Hrun as (? & ? & _ & Hret).
    inversion Hret; subst. eexists _, _. cbn [content isError]. eauto 8.
  - unfold tool_list_applications in Hrun.
    apply bind_normal in Hrun as (? & ? & _ & Hrun).
    apply bind_normal in Hrun as (? & ? & _ & Hret).
    inversion Hret; subst. eexists _, _. cbn [content isError]. eauto 8.
  - unfold tool_extract_text in Hrun.
    destruct (truthy_string _); [ | discriminate ].
    apply bind_normal in Hrun as (? & ? & _ & Hrun).
    apply bind_normal in Hrun as (? & ? & _ & Hret).
    inversion Hret; subst. eexists _, _. cbn [content isError]. eauto 8.
  - unfold tool_capture_screen_and_extract_text in Hrun.
    apply bind_normal in Hrun as (? & ? & _ & Hrun).
    apply bind_normal in Hrun as (? & ? & _ & Hret).
    inversion Hret; subst. eexists _, _. cbn [content isError]. eauto 8.
  - discriminate.
Qed.

